(** * lambda-log-analyzer: log analysis and alert cooldown

    A shallow embedding of [logAnalyzer.js], [alertService.js], the handler
    of [index.js] and the settings of [config.js], with the properties of
    the analysis pipeline stated and proved over it.

    Conventions of the embedding:
    - a JavaScript string is a list of code units, here the units below 256
      ([list ascii]);
    - a JavaScript number is an exact rational ([Q]) or, where the code only
      produces integers, an integer ([Z]); the rounding of IEEE doubles is
      outside the model;
    - an exception is an explicit result ([Throw]);
    - [Date.now()] is an explicit clock reading passed to the operation;
    - the clients of the services (logs, bucket, notification, mail) are
      functions of the environment that give the outcome of a call;
    - the [Map] of last alert times is a [gmap]. *)

From Stdlib Require Import ZArith QArith Qround Qabs Qminmax Lqa.
From Stdlib Require Import Ascii String List Lia Bool.
From Stdlib Require Import Permutation Sorted.
From stdpp Require Import gmap strings.

Import ListNotations.
Local Open Scope Z_scope.

(** ** Strings and characters *)

Abbreviation str := (list ascii).

Definition chars (x : string) : str := list_ascii_of_string x.

Definition code (c : ascii) : N := N_of_ascii c.

Definition between (lo hi : N) (c : ascii) : bool :=
  ((lo <=? code c) && (code c <=? hi))%N.

(** [\d] *)
Definition is_digit (c : ascii) : bool := between 48 57 c.

(** [\s]: tab, line feed, vertical tab, form feed, carriage return, space and
    the no-break space. *)
Definition is_space (c : ascii) : bool :=
  between 9 13 c || (code c =? 32)%N || (code c =? 160)%N.

(** [\w]: ASCII letters, digits and the underscore. *)
Definition is_word (c : ascii) : bool :=
  between 97 122 c || between 65 90 c || is_digit c || (code c =? 95)%N.

(** Canonicalisation of a code unit under the [i] flag: the upper-case
    mapping, kept only when it stays a single unit of the same alphabet. *)
Definition canonicalize (c : ascii) : ascii :=
  if between 97 122 c then ascii_of_N (code c - 32)
  else if between 224 254 c && negb (code c =? 247)%N then ascii_of_N (code c - 32)
  else c.

(** [String.prototype.substring(0, n)] *)
Definition substring0 (n : nat) (m : str) : str := firstn n m.

Arguments substring0 : simpl never.

(** ** Regular expressions

    The fragment of JavaScript regular expressions used by the analyzer:
    character tests, concatenation, ordered alternation, greedy repetition,
    capturing groups and the word boundary.  Matching is by backtracking with
    the priorities of the language: the leftmost start, the first
    alternative, the longest repetition first. *)

Inductive regex : Type :=
| Empty
| Char (p : ascii -> bool)
| Cat (r1 r2 : regex)
| Alt (r1 r2 : regex)
| Star (r : regex)
| Group (r : regex)
| WordBoundary.

Definition is_word_at (c : option ascii) : bool :=
  match c with Some x => is_word x | None => false end.

(** A continuation receives the character before the current position, the
    remaining input and the captures closed so far. *)
Definition cont (A : Type) : Type := option ascii -> str -> list str -> option A.

(** Greedy repetition of [step]: one more round first, the rest of the
    pattern when no further round leads to a match.  A round that consumes
    nothing is refused, so the length of the input bounds the rounds. *)
Fixpoint star_loop {A : Type}
    (step : option ascii -> str -> list str -> cont A -> option A)
    (k : cont A) (n : nat) (prev : option ascii) (inp : str) (caps : list str)
    : option A :=
  match n with
  | O => k prev inp caps
  | S n' =>
      match step prev inp caps
              (fun prev' inp' caps' =>
                 if (length inp' <? length inp)%nat
                 then star_loop step k n' prev' inp' caps' else None) with
      | Some a => Some a
      | None => k prev inp caps
      end
  end.

Fixpoint run {A : Type} (r : regex) (prev : option ascii) (inp : str)
    (caps : list str) (k : cont A) : option A :=
  match r with
  | Empty => k prev inp caps
  | Char p =>
      match inp with
      | c :: rest => if p c then k (Some c) rest caps else None
      | [] => None
      end
  | Cat r1 r2 =>
      run r1 prev inp caps (fun prev' inp' caps' => run r2 prev' inp' caps' k)
  | Alt r1 r2 =>
      match run r1 prev inp caps k with
      | Some a => Some a
      | None => run r2 prev inp caps k
      end
  | Star r1 => star_loop (run r1) k (length inp) prev inp caps
  | Group r1 =>
      run r1 prev inp caps
        (fun prev' inp' caps' =>
           k prev' inp' (caps' ++ [firstn (length inp - length inp') inp]))
  | WordBoundary =>
      if xorb (is_word_at prev) (is_word_at (head inp))
      then k prev inp caps else None
  end.

(** The array returned by a successful match: the matched text at index 0 and
    the captures from index 1 on. *)
Record match_result := MatchResult { matched : str; groups : list str }.

Definition match_here (r : regex) (prev : option ascii) (inp : str)
    : option match_result :=
  run r prev inp []
    (fun _ rest caps =>
       Some (MatchResult (firstn (length inp - length rest) inp) caps)).

Fixpoint search (r : regex) (prev : option ascii) (inp : str)
    : option match_result :=
  match match_here r prev inp with
  | Some m => Some m
  | None =>
      match inp with
      | [] => None
      | c :: rest => search r (Some c) rest
      end
  end.

(** [String.prototype.match] with a pattern that has no [g] flag. *)
Definition str_match (inp : str) (r : regex) : option match_result :=
  search r None inp.

(** [RegExp.prototype.test] for a pattern with neither [g] nor [y]: it keeps
    no state between calls. *)
Definition test (r : regex) (inp : str) : bool :=
  match str_match inp r with Some _ => true | None => false end.

(** Capture [i] of a match, [i >= 1]. *)
Definition capture (m : match_result) (i : nat) : str :=
  nth (i - 1) (groups m) [].

(** Pattern syntax. *)
Definition lit (c : ascii) : regex := Char (Ascii.eqb c).

Definition lit_i (c : ascii) : regex :=
  Char (fun x => Ascii.eqb (canonicalize x) (canonicalize c)).

Definition any_of (ps : list (ascii -> bool)) : regex :=
  Char (fun x => existsb (fun p => p x) ps).

Fixpoint cat (rs : list regex) : regex :=
  match rs with
  | [] => Empty
  | [r] => r
  | r :: rs' => Cat r (cat rs')
  end.

Fixpoint alt (rs : list regex) : regex :=
  match rs with
  | [] => Char (fun _ => false)
  | [r] => r
  | r :: rs' => Alt r (alt rs')
  end.

Definition text (w : string) : regex := cat (map lit (chars w)).
Definition text_i (w : string) : regex := cat (map lit_i (chars w)).
Definition plus (r : regex) : regex := Cat r (Star r).
Definition opt (r : regex) : regex := Alt r Empty.

Fixpoint times (n : nat) (r : regex) : regex :=
  match n with
  | O => Empty
  | S O => r
  | S n' => Cat r (times n' r)
  end.

Definition digit : regex := Char is_digit.
Definition space : regex := Char is_space.




(** ** Numbers *)

Local Open Scope Q_scope.

Definition Qltb (x y : Q) : bool := negb (Qle_bool y x).

(** [Math.ceil] and [Math.round] (a half rounds up). *)
Definition Math_ceil (x : Q) : Z := Qceiling x.
Definition Math_round (x : Q) : Z := Qfloor (x + (1 # 2)).

Local Open Scope Z_scope.

Definition digit_char (d : Z) : ascii := ascii_of_N (Z.to_N (48 + d mod 10)).

Fixpoint digits_fuel (fuel : nat) (n : Z) (acc : str) : str :=
  match fuel with
  | O => acc
  | S fuel' =>
      if n <? 10 then digit_char n :: acc
      else digits_fuel fuel' (n / 10) (digit_char n :: acc)
  end.

(** The decimal digits of a non-negative integer, ["0"] for zero. *)
Definition decimal (n : Z) : str :=
  digits_fuel (S (Z.to_nat (Z.log2 n))) n [].

(** Digits padded with zeros on the left up to a width. *)
Definition pad (width : nat) (n : Z) : str :=
  let ds := decimal n in
  repeat "0"%char (width - length ds) ++ ds.

Definition digit_value (c : ascii) : Z := Z.of_N (code c) - 48.

(** The value of a run of digits. *)
Definition number_of (ds : str) : Z :=
  fold_left (fun acc c => acc * 10 + digit_value c) ds 0.

Fixpoint span (p : ascii -> bool) (inp : str) : str * str :=
  match inp with
  | c :: rest =>
      if p c then let '(a, b) := span p rest in (c :: a, b) else ([], inp)
  | [] => ([], [])
  end.

(** [parseFloat] on a text that starts with a digit, as every capture
    [(\d+(?:\.\d+)?)] does: the digits and the fraction after a point. *)
Definition parseFloat (t : str) : Q :=
  let '(ip, rest) := span is_digit t in
  match rest with
  | "."%char :: rest' =>
      let '(fp, _) := span is_digit rest' in
      (inject_Z (number_of ip)
       + inject_Z (number_of fp) / inject_Z (10 ^ Z.of_nat (length fp)))%Q
  | _ => inject_Z (number_of ip)
  end.

Fixpoint strip_zeros (rev_digits : str) : str :=
  match rev_digits with
  | "0"%char :: rest => strip_zeros rest
  | _ => rev_digits
  end.

(** [Number.prototype.toString] in its exponent branch, for a value of at
    least [10^21]: the digits of the nearest integer without its trailing
    zeros, a point after the first when there are several, and the decimal
    exponent.  (A double prints the shortest digits that identify it; the
    rational model has no neighbours to tell apart and prints them all.) *)
Definition toString_exponent (x : Q) : str :=
  let ds := decimal (Qfloor (x + (1 # 2))) in
  let e := decimal (Z.of_nat (length ds) - 1) in
  match rev (strip_zeros (rev ds)) with
  | [] => ds
  | [d] => d :: chars "e+" ++ e
  | d :: more => d :: "."%char :: more ++ chars "e+" ++ e
  end.

(** [Number.prototype.toFixed(f)]: the sign, then either the exponent form
    (from [10^21] on) or the integer [n] with [n / 10^f] nearest to the value
    (the larger on a tie), written with [f] digits after the point. *)
Definition toFixed (f : nat) (x : Q) : str :=
  let sign := if Qltb x 0 then chars "-" else [] in
  let ax := Qabs x in
  if Qle_bool (inject_Z (10 ^ 21)) ax then sign ++ toString_exponent ax
  else
    let n := Qfloor (ax * inject_Z (10 ^ Z.of_nat f) + (1 # 2)) in
    let m := pad (S f) n in
    let k := length m in
    match f with
    | O => sign ++ m
    | _ => sign ++ firstn (k - f) m ++ "."%char :: skipn (k - f) m
    end.

(** ** Exceptions *)

Inductive exn : Type :=
| RangeError (msg : string)
| Failure (msg : string).

Inductive result (A : Type) : Type :=
| Ok (a : A)
| Throw (e : exn).

Arguments Ok {A} a.
Arguments Throw {A} e.

Definition bind {A B : Type} (m : result A) (f : A -> result B) : result B :=
  match m with
  | Ok a => f a
  | Throw e => Throw e
  end.

#[global] Instance result_bind : MBind result := fun A B f m => bind m f.

(** ** Dates

    A time value is a number of milliseconds since the epoch, or [None] for
    the [NaN] of an invalid date. *)

Definition msPerDay : Z := 86400000.
Definition maxTime : Z := 8640000000000000.

Definition TimeClip (t : Z) : option Z :=
  if Z.abs t <=? maxTime then Some t else None.

(** Days since the epoch of a civil date; the month counts from 1. *)
Definition days_from_civil (y m d : Z) : Z :=
  let y' := if m <=? 2 then y - 1 else y in
  let era := y' / 400 in
  let yoe := y' - era * 400 in
  let doy := (153 * (if 2 <? m then m - 3 else m + 9) + 2) / 5 + d - 1 in
  let doe := yoe * 365 + yoe / 4 - yoe / 100 + doy in
  era * 146097 + doe - 719468.

Definition civil_from_days (days : Z) : Z * Z * Z :=
  let z := days + 719468 in
  let era := z / 146097 in
  let doe := z - era * 146097 in
  let yoe := (doe - doe / 1460 + doe / 36524 - doe / 146096) / 365 in
  let doy := doe - (365 * yoe + yoe / 4 - yoe / 100) in
  let mp := (5 * doy + 2) / 153 in
  let d := doy - (153 * mp + 2) / 5 + 1 in
  let m := if mp <? 10 then mp + 3 else mp - 9 in
  let y := yoe + era * 400 + (if m <=? 2 then 1 else 0) in
  (y, m, d).

Definition MakeTime (h mi sec ms : Z) : Z :=
  ((h * 60 + mi) * 60 + sec) * 1000 + ms.

Definition MakeDate (day time : Z) : Z := day * msPerDay + time.

(** [Date.prototype.toISOString]: a [RangeError] on an invalid date. *)
Definition toISOString (tv : option Z) : result str :=
  match tv with
  | None => Throw (RangeError "Invalid time value")
  | Some t =>
      let '(y, m, d) := civil_from_days (t / msPerDay) in
      let r := t mod msPerDay in
      let year :=
        if (0 <=? y) && (y <=? 9999) then pad 4 y
        else (if y <? 0 then chars "-" else chars "+") ++ pad 6 (Z.abs y) in
      Ok (year ++ chars "-" ++ pad 2 m ++ chars "-" ++ pad 2 d ++ chars "T"
          ++ pad 2 (r / 3600000) ++ chars ":" ++ pad 2 (r / 60000 mod 60)
          ++ chars ":" ++ pad 2 (r / 1000 mod 60)
          ++ chars "." ++ pad 3 (r mod 1000) ++ chars "Z")
  end.

(** [new Date(n)] for a number of milliseconds. *)
Definition Date_of_number (n : Z) : option Z := TimeClip n.

(** *** Parsing

    [new Date(text)] on the texts the timestamp patterns can capture: three
    numbers separated by dashes or slashes, a [T] or white space, a time, an
    optional fraction and an optional zone.  With the [T] the text is read
    in the ECMAScript date-time format; the other shapes go through the
    fallback reader of V8, the engine of Node.js, which takes three numbers
    as month/day/year unless the first cannot be a day. *)

Record date_fields := DateFields {
  comp0 : Z; comp1 : Z; comp2 : Z;
  iso_date : bool;
  hour : Z; minute : Z; second : Z; millisecond : Z;
  zone : option Z   (* offset from UTC in minutes, when one is written *)
}.

Definition take_number (n : nat) (inp : str) : option (Z * str) :=
  let ds := firstn n inp in
  if (length ds =? n)%nat && forallb is_digit ds
  then Some (number_of ds, skipn n inp) else None.

Definition take_char (p : ascii -> bool) (inp : str) : option (ascii * str) :=
  match inp with
  | c :: rest => if p c then Some (c, rest) else None
  | [] => None
  end.

Definition take_time (inp : str) : option (Z * Z * Z * str) :=
  '(h, inp) ← take_number 2 inp;
  '(_, inp) ← take_char (Ascii.eqb ":") inp;
  '(mi, inp) ← take_number 2 inp;
  '(_, inp) ← take_char (Ascii.eqb ":") inp;
  '(sec, inp) ← take_number 2 inp;
  Some (h, mi, sec, inp).

Definition take_fraction (inp : str) : Z * str :=
  match inp with
  | "."%char :: rest =>
      match take_number 3 rest with
      | Some (ms, rest') => (ms, rest')
      | None => (0, inp)
      end
  | _ => (0, inp)
  end.

(** The zone of the ECMAScript format checks its hour and minute; the
    fallback reader takes them as written. *)
Definition take_zone (strict : bool) (inp : str) : option (option Z * str) :=
  match inp with
  | [] => Some (None, [])
  | "Z"%char :: rest => Some (Some 0, rest)
  | c :: rest =>
      if Ascii.eqb c "+" || Ascii.eqb c "-" then
        '(zh, rest) ← take_number 2 rest;
        '(_, rest) ← take_char (Ascii.eqb ":") rest;
        '(zm, rest) ← take_number 2 rest;
        if strict && negb ((zh <=? 23) && (zm <=? 59)) then None
        else Some (Some ((if Ascii.eqb c "+" then 1 else -1) * (zh * 60 + zm)),
                   rest)
      else None
  end.

Definition scan_dashed (inp : str) : option date_fields :=
  '(c0, inp) ← take_number 4 inp;
  '(_, inp) ← take_char (Ascii.eqb "-") inp;
  '(c1, inp) ← take_number 2 inp;
  '(_, inp) ← take_char (Ascii.eqb "-") inp;
  '(c2, inp) ← take_number 2 inp;
  '(sep, inp) ← take_char (fun c => Ascii.eqb c "T" || is_space c) inp;
  '(h, mi, sec, inp) ← take_time inp;
  let '(ms, inp) := take_fraction inp in
  let iso := Ascii.eqb sep "T" in
  '(z, inp) ← take_zone iso inp;
  match inp with
  | [] => Some (DateFields c0 c1 c2 iso h mi sec ms z)
  | _ => None
  end.

Definition scan_slashed (n0 n2 : nat) (inp : str) : option date_fields :=
  '(c0, inp) ← take_number n0 inp;
  '(_, inp) ← take_char (Ascii.eqb "/") inp;
  '(c1, inp) ← take_number 2 inp;
  '(_, inp) ← take_char (Ascii.eqb "/") inp;
  '(c2, inp) ← take_number n2 inp;
  '(_, inp) ← take_char is_space inp;
  '(h, mi, sec, inp) ← take_time (snd (span is_space inp));
  match inp with
  | [] => Some (DateFields c0 c1 c2 false h mi sec 0 None)
  | _ => None
  end.

Definition is_month (m : Z) : bool := (1 <=? m) && (m <=? 12).
Definition is_day (d : Z) : bool := (1 <=? d) && (d <=? 31).

(** Year, month and day of the three numbers read. *)
Definition compose_day (f : date_fields) : option (Z * Z * Z) :=
  let '(y, m, d) :=
    if iso_date f || negb (is_day (comp0 f))
    then (comp0 f, comp1 f, comp2 f)
    else (comp2 f, comp0 f, comp1 f) in
  let y :=
    if iso_date f then y
    else if (0 <=? y) && (y <=? 49) then y + 2000
    else if (50 <=? y) && (y <=? 99) then y + 1900
    else y in
  if is_month m && is_day d then Some (y, m, d) else None.

(** The time in milliseconds; an hour of 24 only as 24:00:00.000. *)
Definition compose_time (f : date_fields) : option Z :=
  let ok :=
    (hour f <=? 23) && (minute f <=? 59) && (second f <=? 59) in
  let midnight :=
    (hour f =? 24) && (minute f =? 0) && (second f =? 0)
    && (millisecond f =? 0) in
  if ok || midnight
  then Some (MakeTime (hour f) (minute f) (second f) (millisecond f))
  else None.

(** [localTZA] is the offset of local time from UTC in milliseconds; a text
    without a zone is local time. *)
Definition time_of_fields (localTZA : Z) (f : date_fields) : option Z :=
  '(y, m, d) ← compose_day f;
  t ← compose_time f;
  let local := MakeDate (days_from_civil y m d) t in
  TimeClip
    (match zone f with
     | Some minutes => local - minutes * 60000
     | None => local - localTZA
     end).

Definition Date_parse (localTZA : Z) (inp : str) : option Z :=
  match scan_dashed inp with
  | Some f => time_of_fields localTZA f
  | None =>
      match scan_slashed 2 4 inp with
      | Some f => time_of_fields localTZA f
      | None => scan_slashed 4 2 inp ≫= time_of_fields localTZA
      end
  end.

(** ** Configuration ([config.js])

    The values are read from the process environment when the module is
    loaded; they are a parameter of the operations below.  [defaults] are
    the values with the environment unset. *)

Module config.

Record ErrorRate := { maxErrors : Z; timeWindow : Z }.
Record ResponseTime := { maxAvgResponseTime : Z; maxP95ResponseTime : Z }.
Record MemoryUsage := { maxMemoryPercent : Q }.
Record DiskSpace := { maxDiskPercent : Q }.

Record Thresholds := {
  errorRate : ErrorRate;
  responseTime : ResponseTime;
  memoryUsage : MemoryUsage;
  diskSpace : DiskSpace
}.

Record Alerts := {
  snsTopicArn : option str;
  emailFrom : str;
  emailTo : list str;
  alertCooldown : Z   (* minutes *)
}.

Record t := {
  errorPatterns : list regex;
  thresholds : Thresholds;
  alerts : Alerts
}.

Definition defaultErrorPatterns : list regex :=
  [ text_i "ERROR";
    text_i "FATAL";
    text_i "Exception";
    text_i "Error:";
    text_i "failed";
    text_i "timeout";
    cat [text_i "500"; plus space; text_i "Internal"];
    cat [text_i "502"; plus space; text_i "Bad"; plus space; text_i "Gateway"];
    cat [text_i "503"; plus space; text_i "Service"; plus space;
         text_i "Unavailable"];
    cat [text_i "504"; plus space; text_i "Gateway"; plus space;
         text_i "Timeout"] ].

Definition defaults : t := {|
  errorPatterns := defaultErrorPatterns;
  thresholds := {|
    errorRate := {| maxErrors := 10; timeWindow := 15 |};
    responseTime := {| maxAvgResponseTime := 5000; maxP95ResponseTime := 10000 |};
    memoryUsage := {| maxMemoryPercent := 85 |};
    diskSpace := {| maxDiskPercent := 90 |}
  |};
  alerts := {|
    snsTopicArn := None;
    emailFrom := chars "noreply@company.com";
    emailTo := [chars "admin@company.com"];
    alertCooldown := 30
  |}
|}.

End config.

(** ** The analyzer ([logAnalyzer.js]) *)

(** The [value] of a violation is a number in some and a string in others. *)
Inductive js_value : Type :=
| Num (q : Q)
| Text (t : str).

Module violation.
Record t := {
  metric : str;
  value : js_value;
  threshold : Q;
  comparison : str;
  unit : option str;
  source : str
}.
End violation.

(** An entry of [results.errors]; only the entries of the log-group path
    carry the group. *)
Module error.
Record t := {
  timestamp : str;
  logGroup : option str;
  message : str;
  source : str
}.
End error.

(** The accumulator; a field that the object may lack is an option. *)
Record Metrics := {
  totalEvents : option Z;
  totalLines : option Z;
  errorCount : Z;
  responseTimes : option (list Q);
  memoryUsage : option (list Q);
  statusCodes : option (gmap string Z)
}.

Record Results := {
  errors : list error.t;
  metrics : Metrics;
  violations : list violation.t
}.

Module event.
Record t := { timestamp : Z; message : str }.
End event.

Definition set_errorCount (m : Metrics) (n : Z) : Metrics :=
  {| totalEvents := totalEvents m; totalLines := totalLines m;
     errorCount := n; responseTimes := responseTimes m;
     memoryUsage := memoryUsage m; statusCodes := statusCodes m |}.

Definition set_responseTimes (m : Metrics) (l : list Q) : Metrics :=
  {| totalEvents := totalEvents m; totalLines := totalLines m;
     errorCount := errorCount m; responseTimes := Some l;
     memoryUsage := memoryUsage m; statusCodes := statusCodes m |}.

Definition set_memoryUsage (m : Metrics) (l : list Q) : Metrics :=
  {| totalEvents := totalEvents m; totalLines := totalLines m;
     errorCount := errorCount m; responseTimes := responseTimes m;
     memoryUsage := Some l; statusCodes := statusCodes m |}.

Definition set_statusCodes (m : Metrics) (c : gmap string Z) : Metrics :=
  {| totalEvents := totalEvents m; totalLines := totalLines m;
     errorCount := errorCount m; responseTimes := responseTimes m;
     memoryUsage := memoryUsage m; statusCodes := Some c |}.

(** An array field created on first use. *)
Definition or_empty {A : Type} (o : option (list A)) : list A :=
  match o with Some l => l | None => [] end.

(** [/(?:duration|time|elapsed)[:\s]+(\d+(?:\.\d+)?)\s*(?:ms|milliseconds)/i] *)
Definition responseTimePattern : regex :=
  cat [ alt [text_i "duration"; text_i "time"; text_i "elapsed"];
        plus (any_of [Ascii.eqb ":"; is_space]);
        Group (cat [plus digit; opt (cat [lit_i "."; plus digit])]);
        Star space;
        alt [text_i "ms"; text_i "milliseconds"] ].

(** [/memory[:\s]+(\d+(?:\.\d+)?)\s*(?:mb|gb|%)/i] *)
Definition memoryPattern : regex :=
  cat [ text_i "memory";
        plus (any_of [Ascii.eqb ":"; is_space]);
        Group (cat [plus digit; opt (cat [lit_i "."; plus digit])]);
        Star space;
        alt [text_i "mb"; text_i "gb"; text_i "%"] ].

(** [/\b([1-5]\d{2})\b/] *)
Definition statusPattern : regex :=
  cat [ WordBoundary;
        Group (cat [Char (between 49 53); times 2 digit]);
        WordBoundary ].

Definition extractMetrics (message : str) (metrics : Metrics) : Metrics :=
  (* Extract response time *)
  let metrics :=
    match str_match message responseTimePattern with
    | Some responseTimeMatch =>
        set_responseTimes metrics
          (or_empty (responseTimes metrics)
           ++ [parseFloat (capture responseTimeMatch 1)])
    | None => metrics
    end in
  (* Extract memory usage *)
  let metrics :=
    match str_match message memoryPattern with
    | Some memoryMatch =>
        set_memoryUsage metrics
          (or_empty (memoryUsage metrics)
           ++ [parseFloat (capture memoryMatch 1)])
    | None => metrics
    end in
  (* Extract HTTP status codes *)
  match str_match message statusPattern with
  | Some statusMatch =>
      let status := string_of_list_ascii (capture statusMatch 1) in
      let codes := default ∅ (statusCodes metrics) in
      set_statusCodes metrics (<[status := default 0 (codes !! status) + 1]> codes)
  | None => metrics
  end.

(** The three timestamp patterns, each one capturing its whole match. *)
Definition time_of_day : regex :=
  cat [times 2 digit; lit ":"; times 2 digit; lit ":"; times 2 digit].

Definition timestampPatterns : list regex :=
  [ Group (cat [ times 4 digit; lit "-"; times 2 digit; lit "-"; times 2 digit;
                 any_of [Ascii.eqb "T"; is_space];
                 time_of_day;
                 opt (cat [lit "."; times 3 digit]);
                 opt (alt [ lit "Z";
                            cat [ any_of [Ascii.eqb "+"; Ascii.eqb "-"];
                                  times 2 digit; lit ":"; times 2 digit ] ]) ]);
    Group (cat [ times 2 digit; lit "/"; times 2 digit; lit "/"; times 4 digit;
                 plus space; time_of_day ]);
    Group (cat [ times 4 digit; lit "/"; times 2 digit; lit "/"; times 2 digit;
                 plus space; time_of_day ]) ].

(** [null] is [Ok None]; [localTZA] is the zone of the host. *)
Definition extractTimestamp (localTZA : Z) (line : str) : result (option str) :=
  (fix loop (patterns : list regex) : result (option str) :=
     match patterns with
     | [] => Ok None
     | pattern :: patterns' =>
         match str_match line pattern with
         | Some m =>
             iso ← toISOString (Date_parse localTZA (capture m 1));
             Ok (Some iso)
         | None => loop patterns'
         end
     end) timestampPatterns.

(** The comparison function [(a, b) => a - b] and a stable sort by it. *)
Definition compareFn (a b : Q) : Q := (a - b)%Q.

Fixpoint insert_sorted (x : Q) (l : list Q) : list Q :=
  match l with
  | [] => [x]
  | y :: l' =>
      if Qle_bool (compareFn x y) 0 then x :: l else y :: insert_sorted x l'
  end.

Fixpoint sort (l : list Q) : list Q :=
  match l with
  | [] => []
  | x :: l' => insert_sorted x (sort l')
  end.

(** [a[i]] for an integer [i]: [undefined] outside the array. *)
Definition at_index {A : Type} (a : list A) (i : Z) : option A :=
  if i <? 0 then None else nth_error a (Z.to_nat i).

(** [v || 0] on a number or [undefined]. *)
Definition or_zero (v : option Q) : Q :=
  match v with
  | Some x => if Qeq_bool x 0 then 0%Q else x
  | None => 0%Q
  end.

Definition calculatePercentile (values : list Q) (percentile : Q) : Q :=
  let sorted := sort values in
  let index :=
    Math_ceil (percentile / 100 * inject_Z (Z.of_nat (length sorted))) - 1 in
  or_zero (at_index sorted index).

(** [a.reduce((a, b) => a + b)] on a non-empty array. *)
Definition sum (a : list Q) : Q :=
  match a with
  | [] => 0%Q
  | x :: rest => fold_left Qplus rest x
  end.

Definition average (a : list Q) : Q :=
  (sum a / inject_Z (Z.of_nat (length a)))%Q.

(** [x > 0] on a field that may be missing. *)
Definition positive_count (x : option Z) : bool :=
  match x with Some n => 0 <? n | None => false end.

Definition checkThresholds (cfg : config.t) (metrics : Metrics) (source : str)
    : list violation.t :=
  let th := config.thresholds cfg in
  let violations : list violation.t := [] in
  (* Check error rate *)
  let violations :=
    if positive_count (totalEvents metrics) || positive_count (totalLines metrics)
    then
      if config.maxErrors (config.errorRate th) <? errorCount metrics
      then violations ++
           [ {| violation.metric := chars "Error Count";
                violation.value := Num (inject_Z (errorCount metrics));
                violation.threshold := inject_Z (config.maxErrors (config.errorRate th));
                violation.comparison := chars "exceeds";
                violation.unit := None;
                violation.source := source |} ]
      else violations
    else violations in
  (* Check response times *)
  let violations :=
    match responseTimes metrics with
    | Some ((_ :: _) as times) =>
        let avgResponseTime := average times in
        let p95ResponseTime := calculatePercentile times 95 in
        let maxAvg := config.maxAvgResponseTime (config.responseTime th) in
        let maxP95 := config.maxP95ResponseTime (config.responseTime th) in
        let violations :=
          if Qltb (inject_Z maxAvg) avgResponseTime
          then violations ++
               [ {| violation.metric := chars "Average Response Time";
                    violation.value := Num (inject_Z (Math_round avgResponseTime));
                    violation.threshold := inject_Z maxAvg;
                    violation.comparison := chars "exceeds";
                    violation.unit := Some (chars "ms");
                    violation.source := source |} ]
          else violations in
        if Qltb (inject_Z maxP95) p95ResponseTime
        then violations ++
             [ {| violation.metric := chars "P95 Response Time";
                  violation.value := Num (inject_Z (Math_round p95ResponseTime));
                  violation.threshold := inject_Z maxP95;
                  violation.comparison := chars "exceeds";
                  violation.unit := Some (chars "ms");
                  violation.source := source |} ]
        else violations
    | _ => violations
    end in
  (* Check memory usage *)
  match memoryUsage metrics with
  | Some ((_ :: _) as samples) =>
      let avgMemory := average samples in
      let maxMemory := config.maxMemoryPercent (config.memoryUsage th) in
      if Qltb maxMemory avgMemory
      then violations ++
           [ {| violation.metric := chars "Memory Usage";
                violation.value := Text (toFixed 1 avgMemory);
                violation.threshold := maxMemory;
                violation.comparison := chars "exceeds";
                violation.unit := Some (chars "%");
                violation.source := source |} ]
      else violations
  | _ => violations
  end.

Definition set_metrics (r : Results) (m : Metrics) : Results :=
  {| errors := errors r; metrics := m; violations := violations r |}.

Definition push_error (r : Results) (e : error.t) : Results :=
  {| errors := errors r ++ [e];
     metrics := set_errorCount (metrics r) (errorCount (metrics r) + 1);
     violations := violations r |}.

Definition push_violations (r : Results) (vs : list violation.t) : Results :=
  {| errors := errors r; metrics := metrics r;
     violations := violations r ++ vs |}.

(** [a.forEach(f)] with the index of the element; an exception ends it. *)
Fixpoint forEach {A St : Type} (f : nat -> A -> St -> result St) (i : nat)
    (a : list A) (st : St) : result St :=
  match a with
  | [] => Ok st
  | x :: rest => st' ← f i x st; forEach f (S i) rest st'
  end.

(** [config.errorPatterns.some(pattern => pattern.test(message))] *)
Definition isError (cfg : config.t) (message : str) : bool :=
  existsb (fun pattern => test pattern message) (config.errorPatterns cfg).

Definition processLogEvents (cfg : config.t) (events : list event.t)
    (logGroup : str) : result Results :=
  let results :=
    {| errors := [];
       metrics := {| totalEvents := Some (Z.of_nat (length events));
                     totalLines := None;
                     errorCount := 0;
                     responseTimes := Some [];
                     memoryUsage := Some [];
                     statusCodes := None |};
       violations := [] |} in
  results ← forEach (fun _ event results =>
      let message := event.message event in
      timestamp ← toISOString (Date_of_number (event.timestamp event));
      (* Check for error patterns *)
      let results :=
        if isError cfg message
        then push_error results
               {| error.timestamp := timestamp;
                  error.logGroup := Some logGroup;
                  error.message := substring0 500 message;
                  error.source := chars "cloudwatch" |}
        else results in
      (* Extract metrics from log messages *)
      Ok (set_metrics results (extractMetrics message (metrics results))))
    0%nat events results;
  (* Check for threshold violations *)
  Ok (push_violations results (checkThresholds cfg (metrics results) logGroup)).

(** [clock i] is the reading of the wall clock while line [i] is handled. *)
Definition processLogLines (cfg : config.t) (localTZA : Z) (clock : nat -> Z)
    (lines : list str) (source : str) : result Results :=
  let results :=
    {| errors := [];
       metrics := {| totalEvents := None;
                     totalLines := Some (Z.of_nat (length lines));
                     errorCount := 0;
                     responseTimes := Some [];
                     memoryUsage := None;
                     statusCodes := Some ∅ |};
       violations := [] |} in
  results ← forEach (fun i line results =>
      (* Check for error patterns *)
      results ←
        (if isError cfg line
         then
           extracted ← extractTimestamp localTZA line;
           timestamp ←
             match extracted with
             | Some t => Ok t
             | None => toISOString (Date_of_number (clock i))
             end;
           Ok (push_error results
                 {| error.timestamp := timestamp;
                    error.logGroup := None;
                    error.message := substring0 500 line;
                    error.source := source |})
         else Ok results);
      (* Extract metrics *)
      Ok (set_metrics results (extractMetrics line (metrics results))))
    0%nat lines results;
  (* Check for threshold violations *)
  Ok (push_violations results (checkThresholds cfg (metrics results) source)).

(** ** The alert service ([alertService.js]) *)

(** The two transports: the outcome of a send is given by the environment. *)
Record PublishCommand := {
  TopicArn : str;
  Subject : str;
  Message : str;
  severityAttribute : str;
  timestampAttribute : str
}.

Record SendEmailCommand := {
  Source : str;
  ToAddresses : list str;
  SubjectData : str;
  HtmlData : str;
  TextData : str
}.

Record Clients := {
  snsClient_send : PublishCommand -> result str;
  sesClient_send : SendEmailCommand -> result str
}.

Record AlertData := {
  subject : str;
  textMessage : str;
  htmlMessage : str
}.

(** The state of the service: [this.lastAlertTimes]. *)
Abbreviation AlertState := (gmap string Z).

Definition isInCooldown (cfg : config.t) (lastAlertTimes : AlertState)
    (now : Z) (alertType : string) : bool :=
  match lastAlertTimes !! alertType with
  | None => false
  | Some lastAlertTime =>
      (* [!lastAlertTime] holds of the number 0 as well *)
      if lastAlertTime =? 0 then false
      else
        let cooldownMs := config.alertCooldown (config.alerts cfg) * 60 * 1000 in
        now - lastAlertTime <? cooldownMs
  end.

Definition recordAlert (lastAlertTimes : AlertState) (now : Z)
    (alertType : string) : AlertState :=
  <[alertType := now]> lastAlertTimes.

Definition tagged (severity subject : str) : str :=
  chars "[" ++ severity ++ chars "] " ++ subject.

(** The [catch] of both senders logs and throws the error again. *)
Definition sendSNSAlert (cfg : config.t) (cl : Clients) (now : Z)
    (subject message severity : str) : result (option str) :=
  match config.snsTopicArn (config.alerts cfg) with
  | None => Ok None
  | Some arn =>
      if match arn with [] => true | _ => false end then Ok None
      else
        stamp ← toISOString (Date_of_number now);
        id ← snsClient_send cl
                {| TopicArn := arn;
                   Subject := tagged severity subject;
                   Message := message;
                   severityAttribute := severity;
                   timestampAttribute := stamp |};
        Ok (Some id)
  end.

Definition sendEmailAlert (cfg : config.t) (cl : Clients)
    (subject htmlBody textBody severity : str) : result str :=
  sesClient_send cl
    {| Source := config.emailFrom (config.alerts cfg);
       ToAddresses := config.emailTo (config.alerts cfg);
       SubjectData := tagged severity subject;
       HtmlData := htmlBody;
       TextData := textBody |}.

(** [sendAlert] returns the outcome together with the state it leaves.
    [now] is the clock at the cooldown check, [nowSNS] while the
    notification is built and [nowRecord] when the alert is recorded. *)
Definition sendAlert (cfg : config.t) (cl : Clients)
    (lastAlertTimes : AlertState) (now nowSNS nowRecord : Z)
    (alertData : AlertData) (alertType : string) (severity : str)
    : result unit * AlertState :=
  if isInCooldown cfg lastAlertTimes now alertType
  then (Ok tt, lastAlertTimes)
  else
    match sendSNSAlert cfg cl nowSNS (subject alertData)
            (textMessage alertData) severity with
    | Throw e => (Throw e, lastAlertTimes)
    | Ok _ =>
        match sendEmailAlert cfg cl (subject alertData) (htmlMessage alertData)
                (textMessage alertData) severity with
        | Throw e => (Throw e, lastAlertTimes)
        | Ok _ => (Ok tt, recordAlert lastAlertTimes nowRecord alertType)
        end
    end.

(** ** The sources of the logs ([logAnalyzer.js])

    The retrieval of the logs: the log groups one after another and the
    recent files of the bucket.  The clients of the two services, the
    inflation of a compressed body and the decoding of a plain one belong to
    the environment and are given by their outcomes. *)

(** The fields of [config.js] that the retrieval reads. *)
Module settings.

Record S3Config := { bucket : str; prefix : str; region : str }.
Record Analysis := { lookbackMinutes : Z; batchSize : Z }.

Record t := {
  logGroups : list str;
  s3Config : S3Config;
  analysis : Analysis
}.

Definition defaults : t := {|
  logGroups := [ chars "/aws/lambda/my-application";
                 chars "/aws/apigateway/my-api";
                 chars "/aws/ecs/my-service" ];
  s3Config := {| bucket := chars "my-log-bucket"; prefix := chars "logs/";
                 region := chars "us-east-1" |};
  analysis := {| lookbackMinutes := 60; batchSize := 1000 |}
|}.

End settings.

(** The value of a property of the object [results.metrics]: an accumulator
    under the name of a log group, or a field of an accumulator. *)
Inductive property : Type :=
| PNumber (n : Z)
| PSamples (l : list Q)
| PCodes (c : gmap string Z)
| PMetrics (m : Metrics).

Definition set_present {A : Type} (key : string) (f : A -> property)
    (o : option A) (obj : gmap string property) : gmap string property :=
  match o with
  | Some a => <[key := f a]> obj
  | None => obj
  end.

(** The own properties of an accumulator. *)
Definition properties_of (m : Metrics) : gmap string property :=
  set_present "totalEvents" PNumber (totalEvents m)
    (set_present "totalLines" PNumber (totalLines m)
       (<["errorCount" := PNumber (errorCount m)]>
          (set_present "responseTimes" PSamples (responseTimes m)
             (set_present "memoryUsage" PSamples (memoryUsage m)
                (set_present "statusCodes" PCodes (statusCodes m) ∅))))).

(** [Object.assign(target, source)]: the properties of the source replace
    those of the target. *)
Definition Object_assign (target source : gmap string property)
    : gmap string property :=
  source ∪ target.

(** The results of one of the two analyses. *)
Module analysis.
Record t := {
  errors : list error.t;
  metrics : gmap string property;
  violations : list violation.t
}.
Definition empty : t := {| errors := []; metrics := ∅; violations := [] |}.
End analysis.

(** [error.message] *)
Definition message_of (e : exn) : str :=
  match e with
  | RangeError msg => chars msg
  | Failure msg => chars msg
  end.

Module cloudwatch.
Record FilterLogEventsCommand := {
  logGroupName : str;
  startTime : Z;
  endTime : Z;
  limit : Z
}.
(** [response.events], which may be missing. *)
Record Response := { events : option (list event.t) }.
End cloudwatch.

(** The outcome of the [i]-th call of [cloudWatchClient.send]. *)
Definition CloudWatchClient : Type :=
  nat -> cloudwatch.FilterLogEventsCommand -> result cloudwatch.Response.

(** [now] is the clock when the analysis starts, [failureNow i] the clock
    when the failure of log group [i] is recorded. *)
Definition analyzeCloudWatchLogs (cfg : config.t) (s : settings.t)
    (cloudWatchClient_send : CloudWatchClient) (now : Z) (failureNow : nat -> Z)
    : result analysis.t :=
  let results := analysis.empty in
  let endTime := now in
  let startTime :=
    endTime - settings.lookbackMinutes (settings.analysis s) * 60 * 1000 in
  forEach (fun i logGroup results =>
      let attempt : result analysis.t :=
        response ← cloudWatchClient_send i
                     {| cloudwatch.logGroupName := logGroup;
                        cloudwatch.startTime := startTime;
                        cloudwatch.endTime := endTime;
                        cloudwatch.limit :=
                          settings.batchSize (settings.analysis s) |};
        match cloudwatch.events response with
        | Some ((_ :: _) as events) =>
            logGroupResults ← processLogEvents cfg events logGroup;
            Ok {| analysis.errors :=
                    analysis.errors results ++ errors logGroupResults;
                  analysis.metrics :=
                    <[string_of_list_ascii logGroup :=
                        PMetrics (metrics logGroupResults)]>
                      (analysis.metrics results);
                  analysis.violations :=
                    analysis.violations results ++ violations logGroupResults |}
        | _ => Ok results
        end in
      match attempt with
      | Ok results' => Ok results'
      | Throw error =>
          timestamp ← toISOString (Date_of_number (failureNow i));
          Ok {| analysis.errors :=
                  analysis.errors results ++
                  [ {| error.timestamp := timestamp;
                       error.logGroup := Some logGroup;
                       error.message :=
                         chars "Failed to analyze log group: "
                         ++ message_of error;
                       error.source := chars "log-analyzer" |} ];
                analysis.metrics := analysis.metrics results;
                analysis.violations := analysis.violations results |}
      end)
    0%nat (settings.logGroups s) results.

Module s3.
Record Object := { Key : str; LastModified : Z }.
Record ListObjectsV2Command := { Bucket : str; Prefix : str; MaxKeys : Z }.
Record GetObjectCommand := { GetBucket : str; GetKey : str }.
End s3.

(** The bucket: the listing ([listResponse.Contents], which may be
    missing), the whole body of the object fetched by the [i]-th call, and
    the two ways a body becomes text. *)
Record S3Client := {
  s3Client_list : s3.ListObjectsV2Command -> result (option (list s3.Object));
  s3Client_get : nat -> s3.GetObjectCommand -> result str;
  gunzip_toString : str -> result str;
  transformToString : str -> result str
}.

(** [text.endsWith(suffix)] *)
Definition endsWith (text suffix : str) : bool :=
  (length suffix <=? length text)%nat
  && bool_decide (skipn (length text - length suffix) text = suffix).

(** [text.split(separator)] for a separator of one character. *)
Fixpoint split (separator : ascii) (text : str) : list str :=
  match text with
  | [] => [[]]
  | c :: rest =>
      if Ascii.eqb c separator then [] :: split separator rest
      else
        match split separator rest with
        | piece :: pieces => (c :: piece) :: pieces
        | [] => [[c]]
        end
  end.

(** [line.trim()] is not empty. *)
Definition not_blank (line : str) : bool :=
  existsb (fun c => negb (is_space c)) line.

(** [i] numbers the calls, [clock j] is the clock at line [j]. *)
Definition processS3LogFile (cfg : config.t) (s : settings.t) (cl : S3Client)
    (localTZA : Z) (i : nat) (clock : nat -> Z) (key : str) : result Results :=
  body ← s3Client_get cl i
           {| s3.GetBucket := settings.bucket (settings.s3Config s);
              s3.GetKey := key |};
  content ←
    (if endsWith key (chars ".gz") then gunzip_toString cl body
     else transformToString cl body);
  let lines := List.filter not_blank (split "010"%char content) in
  processLogLines cfg localTZA clock lines key.

(** [now] is the clock when the files are selected, [lineNow i] the clock
    for the lines of file [i], [failureNow] the clock when a failure of the
    listing is recorded. *)
Definition analyzeS3Logs (cfg : config.t) (s : settings.t) (cl : S3Client)
    (localTZA : Z) (now : Z) (lineNow : nat -> nat -> Z) (failureNow : Z)
    : result analysis.t :=
  let results := analysis.empty in
  let attempt : result analysis.t :=
    contents ← s3Client_list cl
                 {| s3.Bucket := settings.bucket (settings.s3Config s);
                    s3.Prefix := settings.prefix (settings.s3Config s);
                    s3.MaxKeys := 100 |};
    match contents with
    | Some ((_ :: _) as contents) =>
        (* Filter files by modification time *)
        let cutoffTime :=
          now - settings.lookbackMinutes (settings.analysis s) * 60000 in
        let recentFiles :=
          List.filter (fun obj => cutoffTime <? s3.LastModified obj) contents in
        (* Process each file, at most 10 *)
        forEach (fun i file results =>
            match processS3LogFile cfg s cl localTZA i (lineNow i)
                    (s3.Key file) with
            | Ok fileResults =>
                Ok {| analysis.errors :=
                        analysis.errors results ++ errors fileResults;
                      analysis.metrics :=
                        Object_assign (analysis.metrics results)
                          (properties_of (metrics fileResults));
                      analysis.violations :=
                        analysis.violations results ++ violations fileResults |}
            | Throw _ => Ok results
            end)
          0%nat (firstn 10 recentFiles) results
    | _ => Ok results
    end in
  match attempt with
  | Ok results' => Ok results'
  | Throw error =>
      timestamp ← toISOString (Date_of_number failureNow);
      Ok {| analysis.errors :=
              analysis.errors results ++
              [ {| error.timestamp := timestamp;
                   error.logGroup := None;
                   error.message :=
                     chars "Failed to analyze S3 logs: " ++ message_of error;
                   error.source := chars "s3-analyzer" |} ];
            analysis.metrics := analysis.metrics results;
            analysis.violations := analysis.violations results |}
  end.

(** The readings of the clock in one run of the analysis. *)
Record Clock := {
  cloudWatchNow : Z;
  groupFailureNow : nat -> Z;
  s3Now : Z;
  lineNow : nat -> nat -> Z;
  s3FailureNow : Z;
  reportNow : Z
}.

Record Summary := {
  totalErrors : Z;
  totalViolations : Z;
  cloudWatchSources : Z;
  s3Sources : Z
}.

Module report.
Record t := {
  errors : list error.t;
  metrics : gmap string property;
  violations : list violation.t;
  timestamp : str;
  summary : Summary
}.
End report.

(** The two analyses share nothing, and either fails only with the
    [RangeError] of a clock out of range, so that the order in which
    [Promise.all] sees them makes no difference. *)
Definition analyzeLogs (cfg : config.t) (s : settings.t)
    (cloudWatchClient_send : CloudWatchClient) (cl : S3Client)
    (localTZA : Z) (clock : Clock) : result report.t :=
  cloudWatchResults ←
    analyzeCloudWatchLogs cfg s cloudWatchClient_send (cloudWatchNow clock)
      (groupFailureNow clock);
  s3Results ←
    analyzeS3Logs cfg s cl localTZA (s3Now clock) (lineNow clock)
      (s3FailureNow clock);
  timestamp ← toISOString (Date_of_number (reportNow clock));
  (* Combine results *)
  Ok {| report.errors :=
          analysis.errors cloudWatchResults ++ analysis.errors s3Results;
        report.metrics :=
          Object_assign (analysis.metrics cloudWatchResults)
            (analysis.metrics s3Results);
        report.violations :=
          analysis.violations cloudWatchResults
          ++ analysis.violations s3Results;
        report.timestamp := timestamp;
        report.summary :=
          {| totalErrors :=
               Z.of_nat (length (analysis.errors cloudWatchResults))
               + Z.of_nat (length (analysis.errors s3Results));
             totalViolations :=
               Z.of_nat (length (analysis.violations cloudWatchResults))
               + Z.of_nat (length (analysis.violations s3Results));
             cloudWatchSources :=
               Z.of_nat (size (analysis.metrics cloudWatchResults));
             s3Sources := Z.of_nat (size (analysis.metrics s3Results)) |} |}.

(** ** The handler ([index.js])

    The texts of the alerts are built by string templates that print
    floating-point numbers and hold characters above 255, which the strings
    and numbers of this embedding cannot render.  What the handler does
    with the texts does not depend on them, so the embedding takes the
    finished texts from the environment; when and how often the clock is
    read for them, and that this raises for a clock out of range, is kept. *)
Record Templates := {
  (* [alertService.formatErrorAlert(errors, timeWindow)] *)
  formatErrorAlert : list error.t -> Z -> AlertData;
  (* the texts of [alertService.formatThresholdAlert(violations)], given
     the two timestamps *)
  thresholdTexts : list violation.t -> str -> str -> AlertData;
  (* the summary alert *)
  summaryAlert : report.t -> AlertData;
  (* the alert about a failure of the function, given its timestamp *)
  failureAlert : exn -> str -> AlertData
}.

(** [formatThresholdAlert] reads the clock once for each of its two texts. *)
Definition formatThresholdAlert (tpl : Templates) (nowText nowHtml : Z)
    (violations : list violation.t) : result AlertData :=
  stampText ← toISOString (Date_of_number nowText);
  stampHtml ← toISOString (Date_of_number nowHtml);
  Ok (thresholdTexts tpl violations stampText stampHtml).

(** [text.includes(needle)] *)
Fixpoint startsWith (text needle : str) : bool :=
  match needle, text with
  | [], _ => true
  | _ :: _, [] => false
  | n :: needle', c :: text' => Ascii.eqb c n && startsWith text' needle'
  end.

Fixpoint includes (text needle : str) : bool :=
  startsWith text needle
  || match text with
     | [] => false
     | _ :: rest => includes rest needle
     end.

(** The readings of the clock in one [sendAlert]. *)
Record AlertClock := { checkNow : Z; snsNow : Z; recordNow : Z }.

(** The readings of the clock while the results are processed. *)
Record AlertsClock := {
  errorAlertNow : AlertClock;
  thresholdTextNow : Z;
  thresholdHtmlNow : Z;
  thresholdAlertNow : AlertClock;
  summaryAlertNow : AlertClock
}.

(** A step of the alert service: an outcome and the state it leaves. *)
Definition Alerting (A : Type) : Type := AlertState -> result A * AlertState.

Definition andThen {A B : Type} (m : Alerting A) (f : A -> Alerting B)
    : Alerting B :=
  fun lastAlertTimes =>
    match m lastAlertTimes with
    | (Ok a, lastAlertTimes') => f a lastAlertTimes'
    | (Throw e, lastAlertTimes') => (Throw e, lastAlertTimes')
    end.

Definition skip : Alerting unit := fun lastAlertTimes => (Ok tt, lastAlertTimes).

Definition lift {A : Type} (r : result A) : Alerting A :=
  fun lastAlertTimes => (r, lastAlertTimes).

Definition alertService_sendAlert (cfg : config.t) (cl : Clients)
    (clock : AlertClock) (alertData : AlertData) (alertType : string)
    (severity : str) : Alerting unit :=
  fun lastAlertTimes =>
    sendAlert cfg cl lastAlertTimes (checkNow clock) (snsNow clock)
      (recordNow clock) alertData alertType severity.

Definition processAnalysisResults (cfg : config.t) (s : settings.t)
    (tpl : Templates) (cl : Clients) (clock : AlertsClock)
    (results : report.t) : Alerting unit :=
  let errors := report.errors results in
  let violations := report.violations results in
  let maxErrors := config.maxErrors (config.errorRate (config.thresholds cfg)) in
  andThen
    (* Send error alerts if threshold exceeded *)
    (if maxErrors <? Z.of_nat (length errors)
     then
       let errorAlert :=
         formatErrorAlert tpl errors
           (settings.lookbackMinutes (settings.analysis s)) in
       alertService_sendAlert cfg cl (errorAlertNow clock) errorAlert
         "error-threshold"
         (if maxErrors * 2 <? Z.of_nat (length errors)
          then chars "CRITICAL" else chars "WARNING")
     else skip)
    (fun _ =>
  andThen
    (* Send threshold violation alerts *)
    (if 0 <? Z.of_nat (length violations)
     then
       andThen
         (lift (formatThresholdAlert tpl (thresholdTextNow clock)
                  (thresholdHtmlNow clock) violations))
         (fun thresholdAlert =>
            alertService_sendAlert cfg cl (thresholdAlertNow clock)
              thresholdAlert "threshold-violation"
              (if existsb (fun v =>
                             includes (violation.metric v) (chars "Memory")
                             || includes (violation.metric v) (chars "Error"))
                    violations
               then chars "CRITICAL" else chars "WARNING"))
     else skip)
    (fun _ =>
    (* Send summary if there are any issues *)
    if (0 <? Z.of_nat (length errors)) || (0 <? Z.of_nat (length violations))
    then
      alertService_sendAlert cfg cl (summaryAlertNow clock)
        (summaryAlert tpl results) "summary" (chars "INFO")
    else skip)).

(** The object that the handler hands to [JSON.stringify] as the body. *)
Inductive Body : Type :=
| Completed (summary : Summary) (duration : Z) (timestamp : str)
| Failed (message : str) (timestamp : str).

Record Response := { statusCode : Z; body : Body }.

(** The readings of the clock in one invocation. *)
Record HandlerClock := {
  startNow : Z;
  analysisNow : Clock;
  alertsNow : AlertsClock;
  endNow : Z;
  responseNow : Z;
  failureTextNow : Z;
  failureAlertNow : AlertClock;
  failureResponseNow : Z
}.

(** Every invocation makes its own alert service, whose state starts empty
    and is dropped with it. *)
Definition handler (cfg : config.t) (s : settings.t) (tpl : Templates)
    (cloudWatchClient_send : CloudWatchClient) (s3 : S3Client) (cl : Clients)
    (localTZA : Z) (clock : HandlerClock) : result Response :=
  let startTime := startNow clock in
  let attempt : result Response :=
    (* Perform log analysis *)
    analysisResults ←
      analyzeLogs cfg s cloudWatchClient_send s3 localTZA (analysisNow clock);
    (* Process results and send alerts if necessary *)
    _ ← fst (processAnalysisResults cfg s tpl cl (alertsNow clock)
               analysisResults ∅);
    let duration := endNow clock - startTime in
    timestamp ← toISOString (Date_of_number (responseNow clock));
    Ok {| statusCode := 200;
          body := Completed (report.summary analysisResults) duration
                    timestamp |} in
  match attempt with
  | Ok response => Ok response
  | Throw error =>
      (* Send critical alert about the failure; a failure of this alert is
         logged and goes no further *)
      let _ : result unit :=
        stamp ← toISOString (Date_of_number (failureTextNow clock));
        fst (alertService_sendAlert cfg cl (failureAlertNow clock)
               (failureAlert tpl error stamp) "lambda-failure"
               (chars "CRITICAL") ∅) in
      timestamp ← toISOString (Date_of_number (failureResponseNow clock));
      Ok {| statusCode := 500;
            body := Failed (message_of error) timestamp |}
  end.

(** ** Loading the configuration ([config.js])

    [process.env] is a map from the names of the variables to their
    values.  The two percentages of the thresholds are read by the general
    [parseFloat], whose result may be [Infinity]; they are left out here,
    all other settings are loaded as the object literal does. *)

(** The text without the white space at its start. *)
Fixpoint trimStart (text : str) : str :=
  match text with
  | c :: rest => if is_space c then trimStart rest else text
  | [] => []
  end.

Definition is_hex_digit (c : ascii) : bool :=
  is_digit c || between 97 102 c || between 65 70 c.

Definition hex_value (c : ascii) : Z :=
  if is_digit c then digit_value c
  else if between 97 102 c then Z.of_N (code c) - 87
  else Z.of_N (code c) - 55.

Definition number_of_hex (ds : str) : Z :=
  fold_left (fun acc c => acc * 16 + hex_value c) ds 0.

(** The sign at the start of a numeral, and the rest. *)
Definition strip_sign (text : str) : Z * str :=
  match text with
  | "-"%char :: rest => (-1, rest)
  | "+"%char :: rest => (1, rest)
  | _ => (1, text)
  end.

(** The value of the digits at the start of a text: hexadecimal after
    [0x] or [0X], decimal otherwise; [None] when there is no digit. *)
Definition leading_integer (text : str) : option Z :=
  match text with
  | "0"%char :: "x"%char :: rest
  | "0"%char :: "X"%char :: rest =>
      match fst (span is_hex_digit rest) with
      | [] => None
      | (_ :: _) as ds => Some (number_of_hex ds)
      end
  | _ =>
      match fst (span is_digit text) with
      | [] => None
      | (_ :: _) as ds => Some (number_of ds)
      end
  end.

(** [parseInt(string)] without a radix, [None] for [NaN]; the string of
    [undefined] holds no digit. *)
Definition parseInt (string : option str) : option Z :=
  match string with
  | None => None
  | Some inputString =>
      let '(sign, unsigned) := strip_sign (trimStart inputString) in
      match leading_integer unsigned with
      | Some mathInt => Some (sign * mathInt)
      | None => None
      end
  end.

(** [number || fallback]: [NaN] and 0 are falsy. *)
Definition number_or (number : option Z) (fallback : Z) : Z :=
  match number with
  | Some n => if n =? 0 then fallback else n
  | None => fallback
  end.

(** [text || fallback]: [undefined] and the empty string are falsy. *)
Definition string_or (text : option str) (fallback : str) : str :=
  match text with
  | Some ((_ :: _) as t) => t
  | _ => fallback
  end.

Module load.

Definition errorRate (env : gmap string str) : config.ErrorRate :=
  {| config.maxErrors := number_or (parseInt (env !! "MAX_ERRORS")) 10;
     config.timeWindow :=
       number_or (parseInt (env !! "TIME_WINDOW_MINUTES")) 15 |}.

Definition responseTime (env : gmap string str) : config.ResponseTime :=
  {| config.maxAvgResponseTime :=
       number_or (parseInt (env !! "MAX_AVG_RESPONSE_TIME")) 5000;
     config.maxP95ResponseTime :=
       number_or (parseInt (env !! "MAX_P95_RESPONSE_TIME")) 10000 |}.

Definition alerts (env : gmap string str) : config.Alerts :=
  {| config.snsTopicArn := env !! "SNS_TOPIC_ARN";
     config.emailFrom :=
       string_or (env !! "EMAIL_FROM") (chars "noreply@company.com");
     config.emailTo :=
       match env !! "EMAIL_TO" with
       | Some ((_ :: _) as recipients) => split ","%char recipients
       | _ => [chars "admin@company.com"]
       end;
     config.alertCooldown :=
       number_or (parseInt (env !! "ALERT_COOLDOWN_MINUTES")) 30 |}.

Definition s3Config (env : gmap string str) : settings.S3Config :=
  {| settings.bucket := string_or (env !! "LOG_BUCKET") (chars "my-log-bucket");
     settings.prefix := string_or (env !! "LOG_PREFIX") (chars "logs/");
     settings.region := string_or (env !! "AWS_REGION") (chars "us-east-1") |}.

Definition analysis (env : gmap string str) : settings.Analysis :=
  {| settings.lookbackMinutes :=
       number_or (parseInt (env !! "LOOKBACK_MINUTES")) 60;
     settings.batchSize := number_or (parseInt (env !! "BATCH_SIZE")) 1000 |}.

End load.

(** ** Reference definitions *)



(** The match of the first pattern of a list that matches the line. *)
Fixpoint first_match (line : str) (patterns : list regex)
    : option match_result :=
  match patterns with
  | [] => None
  | pattern :: patterns' =>
      match str_match line pattern with
      | Some m => Some m
      | None => first_match line patterns'
      end
  end.



(** A check fired: a violation with that metric name is in the output. *)
Definition fires (name : string) (vs : list violation.t) : Prop :=
  In (chars name) (map violation.metric vs).






(** ** Sample inputs *)

(** The accumulator of the unit test of the threshold checks. *)
Definition test_metrics : Metrics :=
  {| totalEvents := Some 100; totalLines := None; errorCount := 15;
     responseTimes := Some [6000; 7000; 8000]%Q;
     memoryUsage := Some [90; 95; 88]%Q;
     statusCodes := None |}.


(** An event with an error message of 606 characters. *)
Definition long_event : event.t :=
  {| event.timestamp := 1701426600123;
     event.message := chars "ERROR " ++ repeat "x"%char 600 |}.

(** *** Histories of the alert service *)

(** The calls of [recordAlert] so far, oldest first, each with the clock
    reading it stamped. *)
Definition record_all (lastAlertTimes : AlertState)
    (history : list (Z * string)) : AlertState :=
  fold_left (fun st call => recordAlert st (fst call) (snd call))
            history lastAlertTimes.

(** The reading stamped by the most recent call for a category. *)
Fixpoint last_recorded (history : list (Z * string)) (alertType : string)
    : option Z :=
  match history with
  | [] => None
  | call :: rest =>
      match last_recorded rest alertType with
      | Some t => Some t
      | None => if String.eqb (snd call) alertType then Some (fst call) else None
      end
  end.

(** A configuration with a topic, and one with a negative cooldown (the
    environment holds [ALERT_COOLDOWN_MINUTES=-5]). *)
Definition with_alerts (a : config.Alerts) : config.t :=
  {| config.errorPatterns := config.errorPatterns config.defaults;
     config.thresholds := config.thresholds config.defaults;
     config.alerts := a |}.

Definition topic_config : config.t :=
  with_alerts
    {| config.snsTopicArn := Some (chars "arn:aws:sns:us-east-1:123:alerts");
       config.emailFrom := chars "noreply@company.com";
       config.emailTo := [chars "admin@company.com"];
       config.alertCooldown := 30 |}.

Definition negative_cooldown_config : config.t :=
  with_alerts
    {| config.snsTopicArn := None;
       config.emailFrom := chars "noreply@company.com";
       config.emailTo := [chars "admin@company.com"];
       config.alertCooldown := -5 |}.

(** Transports: one whose notification service is down, one whose mail
    service is down. *)
Definition sns_down : Clients :=
  {| snsClient_send := fun _ => Throw (Failure "SNS unavailable");
     sesClient_send := fun _ => Ok (chars "mail-1") |}.

Definition ses_down : Clients :=
  {| snsClient_send := fun _ => Ok (chars "msg-1");
     sesClient_send := fun _ => Throw (Failure "SES unavailable") |}.

Definition sample_alert : AlertData :=
  {| subject := chars "3 errors detected in the last 15 minutes";
     textMessage := chars "Error Alert Summary";
     htmlMessage := chars "<html></html>" |}.

(** ** The batch as a whole *)

(** The records of a batch that the classifier takes for errors. *)
Definition error_events (cfg : config.t) (events : list event.t)
    : list event.t :=
  filter (fun ev => isError cfg (event.message ev) = true) events.

(** An entry of the log-group path stands for an event. *)
Definition entry_of_event (logGroup : str) (e : error.t) (ev : event.t) : Prop :=
  toISOString (Date_of_number (event.timestamp ev)) = Ok (error.timestamp e) /\
  error.logGroup e = Some logGroup /\
  error.message e = substring0 500 (event.message ev) /\
  error.source e = chars "cloudwatch".








(** Transports that both work. *)
Definition services_up : Clients :=
  {| snsClient_send := fun _ => Ok (chars "msg-1");
     sesClient_send := fun _ => Ok (chars "mail-1") |}.

(** ** The sources one by one *)

(** The settings with other log groups. *)
Definition with_logGroups (s : settings.t) (groups : list str) : settings.t :=
  {| settings.logGroups := groups;
     settings.s3Config := settings.s3Config s;
     settings.analysis := settings.analysis s |}.

(** The results of two runs put together, the later one second. *)
Definition append_results (r1 r2 : analysis.t) : analysis.t :=
  {| analysis.errors := analysis.errors r1 ++ analysis.errors r2;
     analysis.metrics := analysis.metrics r2 ∪ analysis.metrics r1;
     analysis.violations := analysis.violations r1 ++ analysis.violations r2 |}.

(** The query for the events of a log group. *)
Definition query (s : settings.t) (now : Z) (logGroup : str)
    : cloudwatch.FilterLogEventsCommand :=
  {| cloudwatch.logGroupName := logGroup;
     cloudwatch.startTime :=
       now - settings.lookbackMinutes (settings.analysis s) * 60 * 1000;
     cloudwatch.endTime := now;
     cloudwatch.limit := settings.batchSize (settings.analysis s) |}.

(** The results that report a log group as failed, and nothing else. *)
Definition group_failed (stamp logGroup : str) (e : exn) : analysis.t :=
  {| analysis.errors :=
       [ {| error.timestamp := stamp;
            error.logGroup := Some logGroup;
            error.message :=
              chars "Failed to analyze log group: " ++ message_of e;
            error.source := chars "log-analyzer" |} ];
     analysis.metrics := ∅;
     analysis.violations := [] |}.

(** The results of a log group whose events were analysed. *)
Definition group_analysed (logGroup : str) (r : Results) : analysis.t :=
  {| analysis.errors := errors r;
     analysis.metrics := {[ string_of_list_ascii logGroup := PMetrics (metrics r) ]};
     analysis.violations := violations r |}.

(** What log group [i] adds to the results. *)
Definition group_results (cfg : config.t) (s : settings.t)
    (send : CloudWatchClient) (now : Z) (failureNow : nat -> Z)
    (i : nat) (logGroup : str) : result analysis.t :=
  match send i (query s now logGroup) with
  | Throw e =>
      stamp ← toISOString (Date_of_number (failureNow i));
      Ok (group_failed stamp logGroup e)
  | Ok response =>
      match cloudwatch.events response with
      | Some ((_ :: _) as events) =>
          match processLogEvents cfg events logGroup with
          | Ok r => Ok (group_analysed logGroup r)
          | Throw e =>
              stamp ← toISOString (Date_of_number (failureNow i));
              Ok (group_failed stamp logGroup e)
          end
      | _ => Ok analysis.empty
      end
  end.

(** A service with two log groups: the first answers with two events, the
    call for the second fails. *)
Definition two_groups : settings.t :=
  with_logGroups settings.defaults [chars "/app/a"; chars "/app/b"].

Definition one_up_one_down : CloudWatchClient :=
  fun i _ =>
    match i with
    | O => Ok {| cloudwatch.events :=
                   Some [ {| event.timestamp := 1000;
                             event.message := chars "ERROR: disk failed" |};
                          {| event.timestamp := 2000;
                             event.message := chars "response_time: 120ms" |} ] |}
    | _ => Throw (Failure "AccessDeniedException")
    end.

(** A log group with an event whose instant is out of range. *)
Definition bad_instant : CloudWatchClient :=
  fun _ _ =>
    Ok {| cloudwatch.events :=
            Some [ {| event.timestamp := 1000;
                      event.message := chars "ERROR: disk failed" |};
                   {| event.timestamp := 8640000000000001;
                      event.message := chars "ok" |} ] |}.

(** *** The files of the bucket *)

(** A file modified after the cutoff. *)
Definition is_recent (s : settings.t) (now : Z) (obj : s3.Object) : bool :=
  now - settings.lookbackMinutes (settings.analysis s) * 60000
  <? s3.LastModified obj.

(** The files that are processed: the first ten recent ones. *)
Definition selected (s : settings.t) (now : Z) (contents : list s3.Object)
    : list s3.Object :=
  firstn 10 (List.filter (is_recent s now) contents).

(** The bucket with another listing. *)
Definition with_listing (cl : S3Client)
    (listing : result (option (list s3.Object))) : S3Client :=
  {| s3Client_list := fun _ => listing;
     s3Client_get := s3Client_get cl;
     gunzip_toString := gunzip_toString cl;
     transformToString := transformToString cl |}.

(** The bucket whose calls are numbered from [k]. *)
Definition calls_from (k : nat) (cl : S3Client) : S3Client :=
  {| s3Client_list := s3Client_list cl;
     s3Client_get := fun i => s3Client_get cl (k + i)%nat;
     gunzip_toString := gunzip_toString cl;
     transformToString := transformToString cl |}.

(** What file [i] adds to the results. *)
Definition file_results (cfg : config.t) (s : settings.t) (cl : S3Client)
    (localTZA : Z) (lineNow : nat -> nat -> Z) (i : nat) (file : s3.Object)
    : analysis.t :=
  match processS3LogFile cfg s cl localTZA i (lineNow i) (s3.Key file) with
  | Ok r => {| analysis.errors := errors r;
               analysis.metrics := properties_of (metrics r);
               analysis.violations := violations r |}
  | Throw _ => analysis.empty
  end.

(** The results that report the listing as failed, and nothing else. *)
Definition listing_failed (stamp : str) (e : exn) : analysis.t :=
  {| analysis.errors :=
       [ {| error.timestamp := stamp;
            error.logGroup := None;
            error.message := chars "Failed to analyze S3 logs: " ++ message_of e;
            error.source := chars "s3-analyzer" |} ];
     analysis.metrics := ∅;
     analysis.violations := [] |}.

(** The lines of a text that are processed. *)
Definition lines_of (content : str) : list str :=
  List.filter not_blank (split "010"%char content).

(** A line that the classifier takes for an error and whose timestamp
    cannot be extracted. *)
Definition poisoned (cfg : config.t) (localTZA : Z) (line : str) : Prop :=
  isError cfg line = true /\
  exists e, extractTimestamp localTZA line = Throw e.

(** The query for the listing of the bucket. *)
Definition listing_query (s : settings.t) : s3.ListObjectsV2Command :=
  {| s3.Bucket := settings.bucket (settings.s3Config s);
     s3.Prefix := settings.prefix (settings.s3Config s);
     s3.MaxKeys := 100 |}.

(** The settings that read a bucket described by its listing alone. *)
Definition sample_listing : list s3.Object :=
  [ {| s3.Key := chars "logs/app.log"; s3.LastModified := 3590000 |};
    {| s3.Key := chars "logs/old.log"; s3.LastModified := -86400000 |};
    {| s3.Key := chars "logs/api.log.gz"; s3.LastModified := 3595000 |} ].

(** A bucket with these files; the call for the first recent file answers
    with a text of five lines, two of them blank, the call for the second
    with an archive that cannot be inflated. *)
Definition sample_bucket : S3Client :=
  {| s3Client_list := fun _ => Ok (Some sample_listing);
     s3Client_get := fun i _ =>
       match i with
       | O => Ok (chars "2023-12-01 10:30:45 ERROR: disk failed" ++ ["010"%char]
                  ++ chars "  " ++ ["010"%char]
                  ++ chars "response_time: 120ms" ++ ["010"%char]
                  ++ chars "GET /health 200" ++ ["010"%char])
       | _ => Ok (chars "not an archive")
       end;
     gunzip_toString := fun _ => Throw (Failure "incorrect header check");
     transformToString := fun body => Ok body |}.

(** A bucket whose listing fails. *)
Definition bucket_down : S3Client :=
  {| s3Client_list := fun _ => Throw (Failure "NoSuchBucket");
     s3Client_get := fun _ _ => Throw (Failure "NoSuchBucket");
     gunzip_toString := fun body => Ok body;
     transformToString := fun body => Ok body |}.

(** A file with two error lines, the second with a date that is none. *)
Definition poisoned_text : str :=
  chars "2023-12-01 10:30:45 ERROR: disk failed" ++ ["010"%char]
  ++ chars "ERROR at 13/45/2023 99:99:99".

Definition poisoned_bucket : S3Client :=
  {| s3Client_list := fun _ =>
       Ok (Some [ {| s3.Key := chars "logs/app.log";
                     s3.LastModified := 3590000 |} ]);
     s3Client_get := fun _ _ => Ok poisoned_text;
     gunzip_toString := fun body => Ok body;
     transformToString := fun body => Ok body |}.

(** The object holds the fields of an accumulator of lines. *)
Definition holds_fields (obj : gmap string property) (m : Metrics) : Prop :=
  obj !! "totalLines" = PNumber <$> totalLines m /\
  obj !! "errorCount" = Some (PNumber (errorCount m)) /\
  obj !! "responseTimes" = PSamples <$> responseTimes m /\
  obj !! "statusCodes" = PCodes <$> statusCodes m.

(** The names of the fields that every accumulator of lines has. *)
Definition line_fields : gset string :=
  {[ "totalLines"; "errorCount"; "responseTimes"; "statusCodes" ]}.

(** A clock that stands still. *)
Definition still_clock (t : Z) : Clock :=
  {| cloudWatchNow := t;
     groupFailureNow := fun _ => t;
     s3Now := t;
     lineNow := fun _ _ => t;
     s3FailureNow := t;
     reportNow := t |}.

(** *** Runs of the handler *)

(** The configuration with another cooldown. *)
Definition with_cooldown (cfg : config.t) (minutes : Z) : config.t :=
  {| config.errorPatterns := config.errorPatterns cfg;
     config.thresholds := config.thresholds cfg;
     config.alerts :=
       {| config.snsTopicArn := config.snsTopicArn (config.alerts cfg);
          config.emailFrom := config.emailFrom (config.alerts cfg);
          config.emailTo := config.emailTo (config.alerts cfg);
          config.alertCooldown := minutes |} |}.

(** Texts that say nothing. *)
Definition plain_templates : Templates :=
  {| formatErrorAlert := fun _ _ => sample_alert;
     thresholdTexts := fun _ _ _ => sample_alert;
     summaryAlert := fun _ => sample_alert;
     failureAlert := fun _ _ => sample_alert |}.

(** A clock that stands still during an invocation. *)
Definition still_alert_clock (t : Z) : AlertClock :=
  {| checkNow := t; snsNow := t; recordNow := t |}.

Definition still_handler_clock (t : Z) : HandlerClock :=
  {| startNow := t;
     analysisNow := still_clock t;
     alertsNow := {| errorAlertNow := still_alert_clock t;
                     thresholdTextNow := t;
                     thresholdHtmlNow := t;
                     thresholdAlertNow := still_alert_clock t;
                     summaryAlertNow := still_alert_clock t |};
     endNow := t;
     responseNow := t;
     failureTextNow := t;
     failureAlertNow := still_alert_clock t;
     failureResponseNow := t |}.

(** A service without log groups to read and an empty bucket. *)
Definition no_groups : settings.t := with_logGroups settings.defaults [].

Definition empty_bucket : S3Client :=
  {| s3Client_list := fun _ => Ok None;
     s3Client_get := fun _ _ => Throw (Failure "NoSuchKey");
     gunzip_toString := fun body => Ok body;
     transformToString := fun body => Ok body |}.

(** A mail service that is down, and no topic. *)
Definition mail_down : Clients :=
  {| snsClient_send := fun _ => Ok (chars "msg-1");
     sesClient_send := fun _ => Throw (Failure "SES unavailable") |}.

(** A report without an issue, and one with a single error. *)
Definition quiet_report : report.t :=
  {| report.errors := [];
     report.metrics := ∅;
     report.violations := [];
     report.timestamp := chars "2023-12-01T10:30:00.000Z";
     report.summary := {| totalErrors := 0; totalViolations := 0;
                          cloudWatchSources := 0; s3Sources := 0 |} |}.

(** The configuration with another limit of errors. *)
Definition with_maxErrors (cfg : config.t) (limit : Z) : config.t :=
  {| config.errorPatterns := config.errorPatterns cfg;
     config.thresholds :=
       {| config.errorRate :=
            {| config.maxErrors := limit;
               config.timeWindow :=
                 config.timeWindow (config.errorRate (config.thresholds cfg)) |};
          config.responseTime := config.responseTime (config.thresholds cfg);
          config.memoryUsage := config.memoryUsage (config.thresholds cfg);
          config.diskSpace := config.diskSpace (config.thresholds cfg) |};
     config.alerts := config.alerts cfg |}.

(** *** Settings of the environment *)

(** The decimal numeral of an integer. *)
Definition numeral (n : Z) : str :=
  if n <? 0 then "-"%char :: decimal (- n) else decimal n.

(** The pieces put together again. *)
Fixpoint join (separator : ascii) (pieces : list str) : str :=
  match pieces with
  | [] => []
  | [piece] => piece
  | piece :: rest => piece ++ separator :: join separator rest
  end.

(** The integer settings that an environment gives. *)
Definition integer_settings (env : gmap string str) : list Z :=
  [ config.maxErrors (load.errorRate env);
    config.timeWindow (load.errorRate env);
    config.maxAvgResponseTime (load.responseTime env);
    config.maxP95ResponseTime (load.responseTime env);
    config.alertCooldown (load.alerts env);
    settings.lookbackMinutes (load.analysis env);
    settings.batchSize (load.analysis env) ].


Definition integer_defaults : list Z := [10; 15; 5000; 10000; 30; 60; 1000].

(** The occurrences of a character in a text. *)
Definition occurrences (c : ascii) (text : str) : nat :=
  length (List.filter (Ascii.eqb c) text).

(** A mail service that refuses the messages marked critical, and no other:
    it tells the severity with which an alert goes out. *)
Definition critical_refused : Clients :=
  {| snsClient_send := fun _ => Ok (chars "msg-1");
     sesClient_send := fun command =>
       if startsWith (SubjectData command) (chars "[CRITICAL]")
       then Throw (Failure "critical refused")
       else Ok (chars "mail-1") |}.

(** The violation is one of a metric that makes the alert critical. *)
Definition grave (v : violation.t) : bool :=
  includes (violation.metric v) (chars "Memory")
  || includes (violation.metric v) (chars "Error").

(** A report with more errors than twice the default limit. *)
Definition many_errors : report.t :=
  {| report.errors :=
       repeat {| error.timestamp := chars "2023-12-01T10:30:00.000Z";
                 error.logGroup := None;
                 error.message := chars "ERROR: disk failed";
                 error.source := chars "logs/app.log" |} 21;
     report.metrics := ∅;
     report.violations := [];
     report.timestamp := chars "2023-12-01T10:30:00.000Z";
     report.summary := {| totalErrors := 21; totalViolations := 0;
                          cloudWatchSources := 0; s3Sources := 4 |} |}.

(** The environment of the example file of the repository. *)
Definition example_environment : gmap string str :=
  list_to_map
    [ ("AWS_REGION", chars "us-east-1");
      ("LOG_BUCKET", chars "my-company-logs");
      ("LOG_PREFIX", chars "logs/");
      ("SNS_TOPIC_ARN",
       chars "arn:aws:sns:us-east-1:123456789012:log-analyzer-alerts");
      ("EMAIL_FROM", chars "alerts@company.com");
      ("EMAIL_TO", chars "admin@company.com,ops@company.com");
      ("MAX_ERRORS", chars "10");
      ("TIME_WINDOW_MINUTES", chars "15");
      ("MAX_AVG_RESPONSE_TIME", chars "5000");
      ("MAX_P95_RESPONSE_TIME", chars "10000");
      ("MAX_MEMORY_PERCENT", chars "85.0");
      ("MAX_DISK_PERCENT", chars "90.0");
      ("ALERT_COOLDOWN_MINUTES", chars "30");
      ("LOOKBACK_MINUTES", chars "60");
      ("BATCH_SIZE", chars "1000");
      ("DEBUG_MODE", chars "false") ].

(** *** The lines of a file *)

(** The lines that the classifier takes for errors, with their places. *)
Definition error_lines (cfg : config.t) (lines : list str) : list (nat * str) :=
  List.filter (fun numbered => isError cfg (snd numbered)) (imap pair lines).

(** An entry of the file path stands for a line: its timestamp is the one
    extracted from the line or, for a line without one, the clock. *)
Definition entry_of_line (localTZA : Z) (clock : nat -> Z) (source : str)
    (e : error.t) (numbered : nat * str) : Prop :=
  (extractTimestamp localTZA (snd numbered) = Ok (Some (error.timestamp e)) \/
   (extractTimestamp localTZA (snd numbered) = Ok None /\
    toISOString (Date_of_number (clock (fst numbered)))
    = Ok (error.timestamp e))) /\
  error.logGroup e = None /\
  error.message e = substring0 500 (snd numbered) /\
  error.source e = source.

(** * Properties *)

(** ** The matcher against the declarative semantics *)

Section Matcher.

Context {A : Type}.
Implicit Types (k : cont A) (r : regex) (w post inp : str).





End Matcher.







(** ** The classifier *)


(** ** Sorting and the percentile *)

































(** ** The timestamp extractor *)

Lemma extractTimestamp_cases (localTZA : Z) (line : str) :
  extractTimestamp localTZA line
  = match first_match line timestampPatterns with
    | None => Ok None
    | Some m =>
        match Date_parse localTZA (capture m 1) with
        | None => Throw (RangeError "Invalid time value")
        | Some t => iso ← toISOString (Some t); Ok (Some iso)
        end
    end.
Proof.
  unfold extractTimestamp. generalize timestampPatterns.
  induction l as [|pattern patterns IH]; [reflexivity|].
  cbn [first_match]. destruct (str_match line pattern) as [m|]; [|exact IH].
  by destruct (Date_parse localTZA (capture m 1)).
Qed.

(** C1 fails on the code. When the text captured by the first matching
    timestamp pattern is not a date, [extractTimestamp] raises a
    [RangeError] ([toISOString] of an invalid date) instead of returning
    [null]: so it does on ["13/45/2023 99:99:99"] and on a leap second
    written ["23:59:60"], whatever the zone of the host, and raised while a
    file is processed the error ends the processing of the file.  A line without a timestamp gives [null] and a line with a
    valid one its instant. *)
Theorem extractTimestamp_invalid_date_raises (localTZA : Z) :
  (forall line m,
     first_match line timestampPatterns = Some m ->
     Date_parse localTZA (capture m 1) = None ->
     extractTimestamp localTZA line = Throw (RangeError "Invalid time value"))
  /\ extractTimestamp localTZA (chars "13/45/2023 99:99:99")
     = Throw (RangeError "Invalid time value")
  /\ extractTimestamp localTZA (chars "2016-12-31T23:59:60Z [ERROR] leap second")
     = Throw (RangeError "Invalid time value")
  /\ (forall clock,
        processLogLines config.defaults localTZA clock
          [chars "INFO ok"; chars "ERROR at 13/45/2023 99:99:99"]
          (chars "app.log")
        = Throw (RangeError "Invalid time value"))
  /\ extractTimestamp localTZA (chars "no timestamp here") = Ok None
  /\ extractTimestamp localTZA (chars "2023-12-01T10:30:00.123Z [ERROR] x")
     = Ok (Some (chars "2023-12-01T10:30:00.123Z")).
Proof.
  split; [|repeat split].
  intros line m Hm Hdate. by rewrite extractTimestamp_cases, Hm, Hdate.
Qed.

(** ** Batch analysis *)

(** C8. Analysing an empty sequence of records raises nothing and returns
    no error entry, no violation and an accumulator with its counters at
    zero and its sample sequences empty, for every source and every
    configuration; so does the analysis of a file without lines. *)
Theorem analyze_empty (cfg : config.t) (sourceId : str) :
  processLogEvents cfg [] sourceId
  = Ok {| errors := [];
          metrics := {| totalEvents := Some 0; totalLines := None;
                        errorCount := 0;
                        responseTimes := Some []; memoryUsage := Some [];
                        statusCodes := None |};
          violations := [] |}
  /\ forall localTZA clock,
       processLogLines cfg localTZA clock [] sourceId
       = Ok {| errors := [];
               metrics := {| totalEvents := None; totalLines := Some 0;
                             errorCount := 0;
                             responseTimes := Some []; memoryUsage := None;
                             statusCodes := Some ∅ |};
               violations := [] |}.
Proof. split; reflexivity. Qed.

Lemma forEach_invariant {A St : Type} (P : St -> Prop)
    (f : nat -> A -> St -> result St) :
  (forall i x st st', P st -> f i x st = Ok st' -> P st') ->
  forall a i st st', P st -> forEach f i a st = Ok st' -> P st'.
Proof.
  intros Hstep. induction a as [|x a IH]; intros i st st' HP H; simpl in H.
  - by injection H as <-.
  - destruct (f i x st) as [st1|e] eqn:E; [|discriminate].
    apply (IH (S i) st1); [|exact H]. by apply (Hstep i x st).
Qed.

Definition bounded_messages (r : Results) : Prop :=
  Forall (fun e => (length (error.message e) <= 500)%nat) (errors r).

Lemma push_error_bounded (r : Results) (timestamp : str) (lg : option str)
    (message source : str) :
  bounded_messages r ->
  bounded_messages
    (push_error r {| error.timestamp := timestamp; error.logGroup := lg;
                     error.message := substring0 500 message;
                     error.source := source |}).
Proof.
  unfold bounded_messages. intros H. simpl. apply Forall_app. split; [exact H|].
  constructor; [|constructor]. simpl. apply firstn_le_length.
Qed.

(** C9. Every error entry that the analysis of a batch of events or of the
    lines of a file returns has a message of at most 500 characters. *)
Theorem error_messages_truncated (cfg : config.t) :
  (forall events logGroup r,
     processLogEvents cfg events logGroup = Ok r ->
     Forall (fun e => (length (error.message e) <= 500)%nat) (errors r))
  /\ (forall localTZA clock lines source r,
        processLogLines cfg localTZA clock lines source = Ok r ->
        Forall (fun e => (length (error.message e) <= 500)%nat) (errors r)).
Proof.
  split.
  - intros events logGroup r H. unfold processLogEvents in H.
    match type of H with
    | mbind _ (forEach ?f ?i ?a ?st) = _ =>
        destruct (forEach f i a st) as [r1|e] eqn:E
    end; [|discriminate].
    injection H as <-. change (bounded_messages r1).
    revert E. apply forEach_invariant; [|constructor].
    intros i ev st st' HP Hstep.
    destruct (toISOString _) as [ts|e]; [|discriminate].
    injection Hstep as <-.
    destruct (isError cfg _); [|exact HP].
    by apply push_error_bounded.
  - intros localTZA clock lines source r H. unfold processLogLines in H.
    match type of H with
    | mbind _ (forEach ?f ?i ?a ?st) = _ =>
        destruct (forEach f i a st) as [r1|e] eqn:E
    end; [|discriminate].
    injection H as <-. change (bounded_messages r1).
    revert E. apply forEach_invariant; [|constructor].
    intros i line st st' HP Hstep.
    destruct (isError cfg line).
    + destruct (extractTimestamp localTZA line) as [[ts|]|e];
        [| |discriminate].
      * injection Hstep as <-. by apply push_error_bounded.
      * destruct (toISOString _) as [ts|e]; [|discriminate].
        injection Hstep as <-. by apply push_error_bounded.
    + injection Hstep as <-. exact HP.
Qed.

Lemma error_messages_truncated_witness :
  exists r,
    processLogEvents config.defaults [long_event] (chars "group") = Ok r /\
    Forall (fun e => (length (error.message e) <= 500)%nat) (errors r) /\
    map (fun e => length (error.message e)) (errors r) = [500%nat].
Proof.
  eexists. split; [vm_compute; reflexivity|]. split.
  - apply (proj1 (error_messages_truncated config.defaults)
             [long_event] (chars "group")).
    vm_compute. reflexivity.
  - vm_compute. reflexivity.
Defined.

(** ** The threshold checks *)

Lemma checkThresholds_metrics (cfg : config.t) (m : Metrics) (src : str) :
  let th := config.thresholds cfg in
  map violation.metric (checkThresholds cfg m src)
  = (if (positive_count (totalEvents m) || positive_count (totalLines m))
        && (config.maxErrors (config.errorRate th) <? errorCount m)
     then [chars "Error Count"] else [])
    ++ (if match responseTimes m with
           | Some ((_ :: _) as times) =>
               Qltb (inject_Z (config.maxAvgResponseTime (config.responseTime th)))
                    (average times)
           | _ => false
           end
        then [chars "Average Response Time"] else [])
    ++ (if match responseTimes m with
           | Some ((_ :: _) as times) =>
               Qltb (inject_Z (config.maxP95ResponseTime (config.responseTime th)))
                    (calculatePercentile times 95)
           | _ => false
           end
        then [chars "P95 Response Time"] else [])
    ++ (if match memoryUsage m with
           | Some ((_ :: _) as samples) =>
               Qltb (config.maxMemoryPercent (config.memoryUsage th))
                    (average samples)
           | _ => false
           end
        then [chars "Memory Usage"] else []).
Proof.
  intros th. unfold checkThresholds. fold th.
  destruct (positive_count _ || positive_count _);
    destruct (_ <? errorCount m);
    destruct (responseTimes m) as [[|x times]|];
    destruct (memoryUsage m) as [[|y samples]|];
    repeat match goal with
           | |- context [Qltb ?a ?b] => destruct (Qltb a b)
           end;
    reflexivity.
Qed.




(** ** Decimal digits and [toFixed] *)













(** ** The alert service *)

Lemma record_all_lookup (history : list (Z * string)) : forall st alertType,
  record_all st history !! alertType
  = match last_recorded history alertType with
    | Some t => Some t
    | None => st !! alertType
    end.
Proof.
  induction history as [|[t a] rest IH]; intros st alertType; [reflexivity|].
  unfold record_all in *. simpl. rewrite IH.
  destruct (last_recorded rest alertType); [reflexivity|].
  unfold recordAlert. destruct (String.eqb a alertType) eqn:E.
  - apply String.eqb_eq in E as ->. by rewrite lookup_insert_eq.
  - apply String.eqb_neq in E. by rewrite lookup_insert_ne.
Qed.

(** C6, as the code has it. A category that was never recorded is not in
    cooldown.  When the most recent [recordAlert] of the category stamped a
    clock reading other than 0, [isInCooldown] is true exactly when less
    than the cooldown has passed since; so, for a positive cooldown, it is
    true immediately after the recording, and it is false again once the
    cooldown has elapsed.  Recording another category changes nothing. *)
Theorem cooldown_window (cfg : config.t) (history : list (Z * string))
    (alertType : string) (now : Z) :
  let st := record_all ∅ history in
  let cooldownMs := config.alertCooldown (config.alerts cfg) * 60 * 1000 in
  (last_recorded history alertType = None ->
   isInCooldown cfg st now alertType = false)
  /\ (forall t, last_recorded history alertType = Some t -> t <> 0 ->
        (isInCooldown cfg st now alertType = true <-> now - t < cooldownMs))
  /\ (forall t, t <> 0 -> 0 < config.alertCooldown (config.alerts cfg) ->
        isInCooldown cfg (recordAlert st t alertType) t alertType = true)
  /\ (forall t later, cooldownMs <= later - t ->
        isInCooldown cfg (recordAlert st t alertType) later alertType = false)
  /\ (forall t other, other <> alertType ->
        isInCooldown cfg (recordAlert st t other) now alertType
        = isInCooldown cfg st now alertType).
Proof.
  intros st cooldownMs. unfold isInCooldown, recordAlert, st.
  fold cooldownMs. split; [|split; [|split; [|split]]].
  - intros Hnone. by rewrite record_all_lookup, Hnone, lookup_empty.
  - intros t Hlast Ht. rewrite record_all_lookup, Hlast.
    apply Z.eqb_neq in Ht. rewrite Ht. apply Z.ltb_lt.
  - intros t Ht Hpos. rewrite lookup_insert_eq.
    apply Z.eqb_neq in Ht. rewrite Ht. apply Z.ltb_lt. lia.
  - intros t later Hlate. rewrite lookup_insert_eq.
    destruct (t =? 0); [reflexivity|]. apply Z.ltb_ge. lia.
  - intros t other Hne. by rewrite lookup_insert_ne.
Qed.

Lemma cooldown_window_witness :
  isInCooldown config.defaults
    (record_all ∅ [(1000, "error-alert"); (5000, "threshold-alert")]%string)
    (1000 + 29 * 60000) "error-alert" = true
  /\ isInCooldown config.defaults
       (recordAlert ∅ 1000 "error-alert") 1000 "error-alert" = true.
Proof.
  pose proof (cooldown_window config.defaults
                [(1000, "error-alert"); (5000, "threshold-alert")]%string
                "error-alert" (1000 + 29 * 60000)) as (_ & Hiff & _).
  split.
  - apply (Hiff 1000); [reflexivity | discriminate | reflexivity].
  - pose proof (cooldown_window config.defaults [] "error-alert" 1000)
      as (_ & _ & Hnow & _).
    apply (Hnow 1000); [discriminate | reflexivity].
Defined.

(** A recording at the clock reading 0 is taken for no recording, and with
    a negative cooldown no recording puts a category in cooldown: in both
    cases [isInCooldown] is false immediately after [recordAlert]. *)
Lemma no_cooldown_right_after_recording :
  isInCooldown config.defaults (recordAlert ∅ 0 "test-alert") 0 "test-alert"
    = false
  /\ isInCooldown negative_cooldown_config
       (recordAlert ∅ 1701426600123 "test-alert") 1701426600123 "test-alert"
     = false.
Proof. split; vm_compute; reflexivity. Qed.

(** C5, as the code has it. A send that is not suppressed and fails leaves
    the state of the service as it was: the failure of the notification
    transport, of the mail transport or of anything else in the send is
    returned to the caller and no cooldown is recorded, so the category is
    not suppressed afterwards; the alert is recorded only when both
    transports have returned. *)
Theorem send_failure_records_nothing (cfg : config.t) (cl : Clients)
    (lastAlertTimes : AlertState) (now nowSNS nowRecord : Z)
    (alertData : AlertData) (alertType : string) (severity : str) :
  isInCooldown cfg lastAlertTimes now alertType = false ->
  let out := sendAlert cfg cl lastAlertTimes now nowSNS nowRecord
               alertData alertType severity in
  (forall e, fst out = Throw e ->
     snd out = lastAlertTimes /\
     forall later, isInCooldown cfg (snd out) later alertType
                   = isInCooldown cfg lastAlertTimes later alertType)
  /\ (forall arn e,
        config.snsTopicArn (config.alerts cfg) = Some arn -> arn <> [] ->
        Z.abs nowSNS <= maxTime ->
        (forall command, snsClient_send cl command = Throw e) ->
        out = (Throw e, lastAlertTimes))
  /\ (forall id e,
        sendSNSAlert cfg cl nowSNS (subject alertData) (textMessage alertData)
          severity = Ok id ->
        (forall command, sesClient_send cl command = Throw e) ->
        out = (Throw e, lastAlertTimes))
  /\ (fst out = Ok tt ->
      snd out = recordAlert lastAlertTimes nowRecord alertType /\
      exists id, sendEmailAlert cfg cl (subject alertData)
                   (htmlMessage alertData) (textMessage alertData) severity
                 = Ok id).
Proof.
  intros Hquiet out. unfold out, sendAlert. rewrite Hquiet.
  split; [|split; [|split]].
  - intros e.
    destruct (sendSNSAlert _ _ _ _ _ _) as [id|e1]; simpl;
      [destruct (sendEmailAlert _ _ _ _ _ _) as [id'|e2]; simpl|];
      intros He; try discriminate He; by split.
  - intros arn e Harn Hne Hclock Hdown.
    unfold sendSNSAlert. rewrite Harn.
    destruct arn as [|c arn']; [contradiction|].
    unfold Date_of_number, TimeClip.
    apply Z.leb_le in Hclock. rewrite Hclock. simpl.
    by rewrite Hdown.
  - intros id e Hsns Hdown. rewrite Hsns.
    unfold sendEmailAlert. by rewrite Hdown.
  - destruct (sendSNSAlert _ _ _ _ _ _) as [id|e1]; simpl;
      [destruct (sendEmailAlert _ _ _ _ _ _) as [id'|e2]; simpl|];
      intros He; try discriminate He. split; [reflexivity | eauto].
Qed.

Lemma send_failure_records_nothing_witness :
  sendAlert topic_config sns_down ∅ 1000 1000 1000 sample_alert "error-alert"
    (chars "WARNING") = (Throw (Failure "SNS unavailable"), ∅)
  /\ sendAlert topic_config ses_down ∅ 1000 1000 1000 sample_alert
       "error-alert" (chars "WARNING")
     = (Throw (Failure "SES unavailable"), ∅).
Proof.
  pose proof (send_failure_records_nothing topic_config sns_down ∅
                1000 1000 1000 sample_alert "error-alert" (chars "WARNING")
                eq_refl) as (_ & Hsns & _).
  pose proof (send_failure_records_nothing topic_config ses_down ∅
                1000 1000 1000 sample_alert "error-alert" (chars "WARNING")
                eq_refl) as (_ & _ & Hses & _).
  split.
  - eapply Hsns; [reflexivity | discriminate | discriminate | reflexivity].
  - eapply Hses; [vm_compute; reflexivity | reflexivity].
Defined.

(** After a send that failed in a transport the category is not in
    cooldown, and the next send goes to the transport again. *)
Lemma failed_send_leaves_no_cooldown :
  sendAlert topic_config sns_down ∅ 1000 1000 1000 sample_alert "error-alert"
    (chars "WARNING") = (Throw (Failure "SNS unavailable"), ∅)
  /\ isInCooldown topic_config
       (snd (sendAlert topic_config sns_down ∅ 1000 1000 1000 sample_alert
               "error-alert" (chars "WARNING")))
       1001 "error-alert" = false
  /\ sendAlert topic_config ses_down
       (snd (sendAlert topic_config ses_down ∅ 1000 1000 1000 sample_alert
               "error-alert" (chars "WARNING")))
       2000 2000 2000 sample_alert "error-alert" (chars "WARNING")
     = (Throw (Failure "SES unavailable"), ∅).
Proof. repeat split. Qed.

(** ** The unit tests of the repository *)

Example test_extract_timestamp :
  map (extractTimestamp 0)
    [ chars "2023-12-01T10:30:00.123Z [ERROR] Something went wrong";
      chars "2023/12/01 10:30:00 [INFO] Process started";
      chars "12/01/2023 10:30:00 [WARN] Memory usage high" ]
  = [ Ok (Some (chars "2023-12-01T10:30:00.123Z"));
      Ok (Some (chars "2023-12-01T10:30:00.000Z"));
      Ok (Some (chars "2023-12-01T10:30:00.000Z")) ].
Proof. reflexivity. Qed.

Example test_detect_error_patterns :
  map (isError config.defaults)
    [ chars "ERROR: Database connection failed";
      chars "FATAL: Out of memory";
      chars "Exception in thread main";
      chars "500 Internal Server Error";
      chars "Request timeout occurred";
      chars "INFO: Application started successfully" ]
  = [true; true; true; true; true; false].
Proof. reflexivity. Qed.

Example test_extract_response_time :
  responseTimes
    (extractMetrics (chars "Request completed with duration: 1234.5ms")
       {| totalEvents := None; totalLines := None; errorCount := 0;
          responseTimes := Some []; memoryUsage := None;
          statusCodes := None |})
  = Some [(12345 # 10)%Q].
Proof. reflexivity. Qed.

Example test_detect_threshold_violations :
  map (fun v => (violation.metric v, violation.value v))
    (checkThresholds config.defaults test_metrics (chars "test-source"))
  = [ (chars "Error Count", Num 15);
      (chars "Average Response Time", Num 7000);
      (chars "Memory Usage", Text (chars "91.0")) ].
Proof. reflexivity. Qed.

Example test_process_mock_events :
  match processLogEvents config.defaults
          [ {| event.timestamp := 1701426600123;
               event.message := chars "INFO: Application started successfully" |};
            {| event.timestamp := 1701426600123;
               event.message :=
                 chars "ERROR: Database connection failed after 30s timeout" |};
            {| event.timestamp := 1701426600123;
               event.message :=
                 chars "WARN: Memory usage at 90%, approaching limit" |} ]
          (chars "test-log-group") with
  | Ok r =>
      (length (errors r), totalEvents (metrics r), errorCount (metrics r))
      = (1%nat, Some 3, 1)
  | Throw _ => False
  end.
Proof. reflexivity. Qed.

Example test_respect_cooldown :
  isInCooldown config.defaults ∅ 1701426600123 "test-alert" = false /\
  isInCooldown config.defaults (recordAlert ∅ 1701426600123 "test-alert")
    1701426600124 "test-alert" = true.
Proof. split; reflexivity. Qed.

(** * Further properties *)

(** ** Accounting of a batch *)

Lemma forEach_prefix {A St : Type} (P : list A -> St -> Prop)
    (f : nat -> A -> St -> result St) :
  (forall pre i x st st', P pre st -> f i x st = Ok st' -> P (pre ++ [x]) st') ->
  forall a pre i st st',
    P pre st -> forEach f i a st = Ok st' -> P (pre ++ a) st'.
Proof.
  intros Hstep. induction a as [|x a IH]; intros pre i st st' HP H; simpl in H.
  - injection H as <-. by rewrite app_nil_r.
  - destruct (f i x st) as [st1|e] eqn:E; [|discriminate].
    replace (pre ++ x :: a) with ((pre ++ [x]) ++ a)
      by (by rewrite <- app_assoc).
    apply (IH _ (S i) st1); [|exact H]. by apply (Hstep pre i x st).
Qed.

Lemma extractMetrics_counters (message : str) (m : Metrics) :
  totalEvents (extractMetrics message m) = totalEvents m /\
  totalLines (extractMetrics message m) = totalLines m /\
  errorCount (extractMetrics message m) = errorCount m.
Proof.
  unfold extractMetrics.
  destruct (str_match message responseTimePattern);
    destruct (str_match message memoryPattern);
    destruct (str_match message statusPattern); by repeat split.
Qed.

Lemma error_events_app (cfg : config.t) (l1 l2 : list event.t) :
  error_events cfg (l1 ++ l2) = error_events cfg l1 ++ error_events cfg l2.
Proof. unfold error_events. apply filter_app. Qed.

(** X1. A batch of events that is analysed without an exception yields one
    error entry for each event that the classifier takes for an error, in
    the order of the events and none besides: the entry carries the instant
    of the event, the log group and the first 500 characters of its
    message.  The error count of the accumulator is the number of entries
    and [totalEvents] the number of events. *)
Theorem batch_errors_are_the_error_events (cfg : config.t)
    (events : list event.t) (logGroup : str) (r : Results) :
  processLogEvents cfg events logGroup = Ok r ->
  Forall2 (entry_of_event logGroup) (errors r) (error_events cfg events)
  /\ errorCount (metrics r) = Z.of_nat (length (errors r))
  /\ length (errors r) = length (error_events cfg events)
  /\ totalEvents (metrics r) = Some (Z.of_nat (length events))
  /\ violations r = checkThresholds cfg (metrics r) logGroup.
Proof.
  intros H. unfold processLogEvents in H.
  match type of H with
  | mbind _ (forEach ?f ?i ?a ?st) = _ =>
      destruct (forEach f i a st) as [r1|e] eqn:E
  end; [|discriminate].
  injection H as <-. simpl.
  set (N := Z.of_nat (length events)) in *.
  assert (Forall2 (entry_of_event logGroup) (errors r1)
            (error_events cfg events) /\
          errorCount (metrics r1) = Z.of_nat (length (errors r1)) /\
          totalEvents (metrics r1) = Some N /\ violations r1 = [])
    as (HF & Hc & Ht & Hv).
  { eapply (forEach_prefix
              (fun pre st =>
                 Forall2 (entry_of_event logGroup) (errors st)
                   (error_events cfg pre) /\
                 errorCount (metrics st) = Z.of_nat (length (errors st)) /\
                 totalEvents (metrics st) = Some N /\ violations st = []))
      with (pre := []); [| |exact E]; [|by repeat split; try constructor].
    intros pre i ev st st' (HF & Hc & Ht & Hv) Hstep. simpl in Hstep.
    destruct (toISOString _) as [ts|e] eqn:Hts; [|discriminate].
    injection Hstep as <-. rewrite error_events_app.
    pose proof (extractMetrics_counters (event.message ev)) as Hm.
    unfold error_events at 2.
    destruct (isError cfg (event.message ev)) eqn:Herr.
    - rewrite filter_cons_True by exact Herr. rewrite filter_nil.
      cbn [metrics errors violations set_metrics push_error].
      destruct (Hm (set_errorCount (metrics st) (errorCount (metrics st) + 1)))
        as (-> & _ & ->).
      simpl. repeat split; try assumption.
      + apply Forall2_app; [exact HF|]. constructor; [|constructor].
        by repeat split.
      + rewrite length_app. simpl. lia.
    - rewrite filter_cons_False by (rewrite Herr; discriminate).
      rewrite filter_nil, app_nil_r.
      cbn [metrics errors violations set_metrics push_error].
      destruct (Hm (metrics st)) as (-> & _ & ->). by repeat split. }
  repeat split; try assumption.
  - by apply Forall2_length in HF.
  - by rewrite Hv.
Qed.

Lemma batch_errors_are_the_error_events_witness :
  exists r,
    processLogEvents config.defaults [long_event] (chars "group") = Ok r /\
    errorCount (metrics r) = 1 /\ length (errors r) = 1%nat.
Proof.
  destruct (processLogEvents config.defaults [long_event] (chars "group"))
    as [r|e] eqn:E; [|vm_compute in E; discriminate].
  exists r. split; [reflexivity|].
  destruct (batch_errors_are_the_error_events config.defaults [long_event]
              (chars "group") r E) as (_ & Hc & Hl & _).
  rewrite Hc, Hl. split; vm_compute; reflexivity.
Defined.

Lemma forEach_succeeds {A St : Type} (f : nat -> A -> St -> result St)
    (good : A -> Prop) :
  (forall i x st, good x -> exists st', f i x st = Ok st') ->
  (forall i x st st', f i x st = Ok st' -> good x) ->
  forall a i st, (exists st', forEach f i a st = Ok st') <-> Forall good a.
Proof.
  intros Hgood Hok. induction a as [|x a IH]; intros i st; simpl.
  - split; [constructor | eauto].
  - split.
    + intros (st' & H). destruct (f i x st) as [st1|e] eqn:E; [|discriminate].
      constructor; [by eapply Hok | eapply IH; eauto].
    + intros HF. inversion HF as [|? ? Hx Ha]; subst.
      destruct (Hgood i x st Hx) as (st1 & ->). simpl. by apply IH.
Qed.

Lemma forEach_error {A St : Type} (f : nat -> A -> St -> result St) (e0 : exn) :
  (forall i x st e, f i x st = Throw e -> e = e0) ->
  forall a i st e, forEach f i a st = Throw e -> e = e0.
Proof.
  intros Hf. induction a as [|x a IH]; intros i st e H; simpl in H;
    [discriminate|].
  destruct (f i x st) as [st1|e1] eqn:E.
  - by eapply IH.
  - injection H as <-. by eapply Hf.
Qed.

Lemma toISOString_valid (t : Z) : exists iso, toISOString (Some t) = Ok iso.
Proof.
  unfold toISOString. destruct (civil_from_days _) as [[y m] d]. eauto.
Qed.

Lemma toISOString_of_number (n : Z) :
  (exists iso, toISOString (Date_of_number n) = Ok iso) <->
  Z.abs n <= maxTime.
Proof.
  unfold Date_of_number, TimeClip. destruct (Z.abs n <=? maxTime) eqn:E.
  - apply Z.leb_le in E. split; [done | intros _; apply toISOString_valid].
  - apply Z.leb_gt in E. split; [by intros (? & ?) | lia].
Qed.

Lemma toISOString_error (tv : option Z) (e : exn) :
  toISOString tv = Throw e -> e = RangeError "Invalid time value".
Proof.
  destruct tv as [t|].
  - destruct (toISOString_valid t) as (iso & ->). discriminate.
  - simpl. by intros [= <-].
Qed.

(** A batch is analysed exactly when the instants of its events are in
    range. *)
Lemma processLogEvents_outcome (cfg : config.t)
    (events : list event.t) (logGroup : str) :
  ((exists r, processLogEvents cfg events logGroup = Ok r) <->
   Forall (fun ev => Z.abs (event.timestamp ev) <= maxTime) events)
  /\ (forall e, processLogEvents cfg events logGroup = Throw e ->
        e = RangeError "Invalid time value").
Proof.
  unfold processLogEvents.
  match goal with
  | |- context [forEach ?f ?i ?a ?st] => set (F := f); set (st0 := st)
  end.
  assert (forall a i st,
            (exists st', forEach F i a st = Ok st') <->
            Forall (fun ev => Z.abs (event.timestamp ev) <= maxTime) a) as Hs.
  { apply forEach_succeeds.
    - intros i ev st Hev. unfold F.
      apply toISOString_of_number in Hev as (iso & ->). simpl. eauto.
    - intros i ev st st' H. unfold F in H.
      apply toISOString_of_number.
      destruct (toISOString _) as [iso|e]; [eauto | discriminate]. }
  assert (forall a i st e,
            forEach F i a st = Throw e -> e = RangeError "Invalid time value")
    as He.
  { apply forEach_error. intros i ev st e' H. unfold F in H.
    destruct (toISOString _) as [iso|e1] eqn:Ets; [discriminate|].
    injection H as <-. by eapply toISOString_error. }
  split.
  - rewrite <- (Hs events 0%nat st0). split.
    + intros (r & H). destruct (forEach F 0%nat events st0); [eauto|].
      discriminate.
    + intros (r & ->). simpl. eauto.
  - intros e H. destruct (forEach F 0%nat events st0) eqn:E; [discriminate|].
    injection H as <-. by eapply He.
Qed.

(** X2. The analysis of a batch of events returns a result exactly when the
    instant of every event, error or not, lies within 8.64e15 milliseconds
    of the epoch; otherwise the whole batch is lost to a [RangeError]. *)
Theorem batch_needs_valid_event_times (cfg : config.t)
    (events : list event.t) (logGroup : str) :
  ((exists r, processLogEvents cfg events logGroup = Ok r) <->
   Forall (fun ev => Z.abs (event.timestamp ev) <= maxTime) events)
  /\ (forall e, processLogEvents cfg events logGroup = Throw e ->
        e = RangeError "Invalid time value").
Proof.
  exact (processLogEvents_outcome cfg events logGroup).
Qed.

(** ** Growth of the accumulator *)

















(** ** The percentile as a rank *)











(** ** Thresholds and the samples *)










(** ** Sends one after another *)

(** X7. An alert that was sent and recorded at a clock reading other than 0
    suppresses the next sends of its category for the cooldown: within the
    window [sendAlert] reports success and leaves the state alone whatever
    the transports would do, so a repeated alert is dropped silently; once
    the window has passed the category is no longer in cooldown; and the
    other categories are in cooldown exactly as they were before. *)
Theorem sent_alert_suppresses_repeats (cfg : config.t) (cl : Clients)
    (lastAlertTimes after : AlertState) (now nowSNS recorded : Z)
    (alertData : AlertData) (alertType : string) (severity : str) :
  isInCooldown cfg lastAlertTimes now alertType = false ->
  sendAlert cfg cl lastAlertTimes now nowSNS recorded alertData alertType
    severity = (Ok tt, after) ->
  recorded <> 0 ->
  let cooldownMs := config.alertCooldown (config.alerts cfg) * 60 * 1000 in
  after !! alertType = Some recorded
  /\ (forall cl' now' nowSNS' nowRecord' alertData' severity',
        now' - recorded < cooldownMs ->
        sendAlert cfg cl' after now' nowSNS' nowRecord' alertData' alertType
          severity' = (Ok tt, after))
  /\ (forall now', cooldownMs <= now' - recorded ->
        isInCooldown cfg after now' alertType = false)
  /\ (forall other now', other <> alertType ->
        isInCooldown cfg after now' other
        = isInCooldown cfg lastAlertTimes now' other).
Proof.
  intros Hquiet Hsend Hrec cooldownMs. unfold sendAlert in Hsend.
  rewrite Hquiet in Hsend.
  destruct (sendSNSAlert _ _ _ _ _ _) as [id|e]; [|discriminate].
  destruct (sendEmailAlert _ _ _ _ _ _) as [id'|e]; [|discriminate].
  injection Hsend as <-. unfold recordAlert.
  assert (forall now', isInCooldown cfg (<[alertType:=recorded]> lastAlertTimes)
                         now' alertType = (now' - recorded <? cooldownMs))
    as Hcool.
  { intros now'. unfold isInCooldown. rewrite lookup_insert_eq.
    apply Z.eqb_neq in Hrec. by rewrite Hrec. }
  split; [by rewrite lookup_insert_eq|]. split; [|split].
  - intros cl' now' nowSNS' nowRecord' alertData' severity' Hin.
    unfold sendAlert. rewrite Hcool.
    apply Z.ltb_lt in Hin. by rewrite Hin.
  - intros now' Hout. rewrite Hcool. apply Z.ltb_ge. exact Hout.
  - intros other now' Hne. unfold isInCooldown.
    by rewrite lookup_insert_ne.
Qed.

Lemma sent_alert_suppresses_repeats_witness :
  sendAlert topic_config sns_down
    (recordAlert ∅ 1000 "error-threshold") 2000 2000 2000 sample_alert
    "error-threshold" (chars "WARNING")
  = (Ok tt, recordAlert ∅ 1000 "error-threshold").
Proof.
  assert (sendAlert topic_config services_up ∅ 1000 1000 1000 sample_alert
            "error-threshold" (chars "WARNING")
          = (Ok tt, recordAlert ∅ 1000 "error-threshold")) as Hsent
    by reflexivity.
  assert (isInCooldown topic_config ∅ 1000 "error-threshold" = false)
    as Hquiet by reflexivity.
  destruct (sent_alert_suppresses_repeats topic_config services_up ∅
              (recordAlert ∅ 1000 "error-threshold") 1000 1000 1000
              sample_alert "error-threshold" (chars "WARNING")
              Hquiet Hsent)
    as (_ & Hrepeat & _); [discriminate|].
  apply Hrepeat. reflexivity.
Defined.

(** X8. Without a topic in the configuration the notification is skipped,
    not failed: the outcome of [sendAlert] and the state it leaves do not
    depend on the notification transport nor on the clock read for the
    notification, only on the mail transport. *)
Theorem no_topic_no_notification (cfg : config.t) (cl cl' : Clients)
    (lastAlertTimes : AlertState) (now nowSNS nowSNS' nowRecord : Z)
    (alertData : AlertData) (alertType : string) (severity : str) :
  config.snsTopicArn (config.alerts cfg) = None \/
  config.snsTopicArn (config.alerts cfg) = Some [] ->
  (forall command, sesClient_send cl' command = sesClient_send cl command) ->
  sendSNSAlert cfg cl nowSNS (subject alertData) (textMessage alertData) severity
  = Ok None
  /\ sendAlert cfg cl' lastAlertTimes now nowSNS' nowRecord alertData alertType
       severity
     = sendAlert cfg cl lastAlertTimes now nowSNS nowRecord alertData alertType
         severity.
Proof.
  intros Htopic Hses.
  assert (forall c n, sendSNSAlert cfg c n (subject alertData)
                        (textMessage alertData) severity = Ok None) as Hskip.
  { intros c n. unfold sendSNSAlert. by destruct Htopic as [-> | ->]. }
  split; [apply Hskip|]. unfold sendAlert. rewrite !Hskip.
  unfold sendEmailAlert. by rewrite Hses.
Qed.

Lemma no_topic_no_notification_witness :
  sendAlert config.defaults ses_down ∅ 1000 0 1000 sample_alert "summary"
    (chars "INFO")
  = sendAlert config.defaults
      {| snsClient_send := fun _ => Throw (Failure "SNS unavailable");
         sesClient_send := sesClient_send ses_down |}
      ∅ 1000 1000 1000 sample_alert "summary" (chars "INFO").
Proof.
  apply no_topic_no_notification; [by left | reflexivity].
Defined.

(** ** The log groups one by one *)

Lemma forEach_app {A St : Type} (f : nat -> A -> St -> result St)
    (a b : list A) : forall i st,
  forEach f i (a ++ b) st
  = (st' ← forEach f i a st; forEach f (i + length a) b st').
Proof.
  induction a as [|x a IH]; intros i st; simpl.
  - by rewrite Nat.add_0_r.
  - destruct (f i x st) as [st1|e]; simpl; [|done].
    rewrite IH. by replace (S i + length a)%nat with (i + S (length a))%nat by lia.
Qed.

Lemma forEach_shift {A St : Type} (f : nat -> A -> St -> result St) (k : nat)
    (a : list A) : forall i st,
  forEach f (k + i) a st = forEach (fun j => f (k + j)%nat) i a st.
Proof.
  induction a as [|x a IH]; intros i st; simpl; [done|].
  destruct (f (k + i)%nat x st) as [st1|e]; simpl; [|done].
  by rewrite <- IH, Nat.add_succ_r.
Qed.

Lemma forEach_ext {A St : Type} (f g : nat -> A -> St -> result St)
    (a : list A) :
  (forall i x st, f i x st = g i x st) ->
  forall i st, forEach f i a st = forEach g i a st.
Proof.
  intros H. induction a as [|x a IH]; intros i st; simpl; [done|].
  rewrite H. destruct (g i x st); simpl; [apply IH | done].
Qed.

(** A loop whose steps only add to the state adds to any state what it adds
    to the empty one. *)
Lemma forEach_frame {A St : Type} (f : nat -> A -> St -> result St)
    (op : St -> St -> St) (e : St) :
  (forall x y z, op x (op y z) = op (op x y) z) ->
  (forall x, op x e = x) ->
  (forall i x st, f i x st = (d ← f i x e; Ok (op st d))) ->
  forall a i st, forEach f i a st = (d ← forEach f i a e; Ok (op st d)).
Proof.
  intros Hassoc Hunit Hf. induction a as [|x a IH]; intros i st; simpl.
  - by rewrite Hunit.
  - rewrite (Hf i x st). destruct (f i x e) as [d|err]; simpl; [|done].
    rewrite (IH (S i) (op st d)), (IH (S i) d).
    destruct (forEach f (S i) a e) as [d'|err]; simpl; [|done].
    by rewrite Hassoc.
Qed.

Lemma append_results_assoc (x y z : analysis.t) :
  append_results x (append_results y z) = append_results (append_results x y) z.
Proof.
  unfold append_results; simpl. f_equal.
  - by rewrite app_assoc.
  - by rewrite (assoc_L (∪)).
  - by rewrite app_assoc.
Qed.

Lemma append_results_empty (x : analysis.t) :
  append_results x analysis.empty = x.
Proof.
  destruct x as [e m v]. unfold append_results; simpl.
  by rewrite !app_nil_r, (left_id_L ∅ (∪)).
Qed.

(** The loop over the log groups adds the results of each group. *)
Lemma analyzeCloudWatchLogs_loop (cfg : config.t) (s : settings.t)
    (send : CloudWatchClient) (now : Z) (failureNow : nat -> Z) :
  analyzeCloudWatchLogs cfg s send now failureNow
  = forEach (fun i g st =>
               d ← group_results cfg s send now failureNow i g;
               Ok (append_results st d))
      0%nat (settings.logGroups s) analysis.empty.
Proof.
  unfold analyzeCloudWatchLogs. apply forEach_ext. intros i g [e m v].
  unfold group_results, query, append_results, group_failed, group_analysed.
  destruct (send i _) as [response|err]; simpl.
  - destruct (cloudwatch.events response) as [[|ev evs]|]; simpl;
      [by rewrite !app_nil_r, (left_id_L ∅ (∪))| |
       by rewrite !app_nil_r, (left_id_L ∅ (∪))].
    destruct (processLogEvents cfg (ev :: evs) g) as [r|err]; simpl.
    + by rewrite insert_union_singleton_l.
    + destruct (toISOString _); simpl; [|done].
      by rewrite (left_id_L ∅ (∪)), app_nil_r.
  - destruct (toISOString _); simpl; [|done].
    by rewrite (left_id_L ∅ (∪)), app_nil_r.
Qed.

Lemma group_results_settings (cfg : config.t) (s : settings.t)
    (groups : list str) :
  group_results cfg (with_logGroups s groups) = group_results cfg s.
Proof. reflexivity. Qed.

(** X9. The log groups are analysed independently of each other: the
    analysis of a list of log groups followed by another is the analysis of
    the first list, then that of the second (at the calls and clock
    readings that follow), with the errors and violations of the two put
    one after the other and the accumulators of the second kept where both
    name a log group.  In particular, no failure of a retrieval and no
    result of one log group changes what another contributes. *)
Theorem log_groups_are_independent (cfg : config.t) (s : settings.t)
    (send : CloudWatchClient) (now : Z) (failureNow : nat -> Z)
    (groups1 groups2 : list str) :
  analyzeCloudWatchLogs cfg (with_logGroups s (groups1 ++ groups2)) send now
    failureNow
  = (r1 ← analyzeCloudWatchLogs cfg (with_logGroups s groups1) send now
            failureNow;
     r2 ← analyzeCloudWatchLogs cfg (with_logGroups s groups2)
            (fun i => send (length groups1 + i)%nat) now
            (fun i => failureNow (length groups1 + i)%nat);
     Ok (append_results r1 r2)).
Proof.
  rewrite !analyzeCloudWatchLogs_loop. cbn [settings.logGroups with_logGroups].
  rewrite !group_results_settings, forEach_app.
  rewrite (Nat.add_comm 0 (length groups1)).
  destruct (forEach _ 0%nat groups1 analysis.empty) as [r1|e]; simpl; [|done].
  rewrite forEach_shift.
  rewrite (forEach_frame _ append_results analysis.empty
             append_results_assoc append_results_empty).
  - reflexivity.
  - intros i g st. cbn beta.
    destruct (group_results _ _ _ _ _ _ _) as [d|e]; simpl; [|done].
    destruct d as [de dm dv]. unfold append_results; simpl.
    by rewrite (right_id_L ∅ (∪)).
Qed.

Lemma analyze_one_group (cfg : config.t) (s : settings.t)
    (send : CloudWatchClient) (now : Z) (failureNow : nat -> Z) (g : str) :
  analyzeCloudWatchLogs cfg (with_logGroups s [g]) send now failureNow
  = group_results cfg s send now failureNow 0%nat g.
Proof.
  rewrite analyzeCloudWatchLogs_loop. cbn [settings.logGroups with_logGroups].
  rewrite group_results_settings. simpl.
  destruct (group_results _ _ _ _ _ _ _) as [[de dm dv]|e]; simpl; [|done].
  unfold append_results; simpl. by rewrite (right_id_L ∅ (∪)).
Qed.

(** X10. What one log group contributes, when the clock is in range at its
    failure: a failed retrieval is reported by exactly one entry of source
    'log-analyzer' that names the group and carries the message of the
    error, with no accumulator and no violation; a missing or empty list of
    events contributes nothing at all, not even an accumulator; events whose
    instants are all in range contribute the errors, the accumulator and the
    violations of their batch; and a single event with an instant out of
    range turns the whole group into one 'log-analyzer' entry with the
    message 'Failed to analyze log group: Invalid time value', whatever the
    other events hold. *)
Theorem log_group_contribution (cfg : config.t) (s : settings.t)
    (send : CloudWatchClient) (now : Z) (failureNow : nat -> Z) (g : str) :
  Z.abs (failureNow 0%nat) <= maxTime ->
  exists stamp r,
    toISOString (Date_of_number (failureNow 0%nat)) = Ok stamp /\
    analyzeCloudWatchLogs cfg (with_logGroups s [g]) send now failureNow = Ok r /\
    (forall e, send 0%nat (query s now g) = Throw e ->
               r = group_failed stamp g e) /\
    (forall response, send 0%nat (query s now g) = Ok response ->
       match cloudwatch.events response with
       | Some ((_ :: _) as events) =>
           (Forall (fun ev => Z.abs (event.timestamp ev) <= maxTime) events ->
            exists batch, processLogEvents cfg events g = Ok batch /\
                          r = group_analysed g batch) /\
           (~ Forall (fun ev => Z.abs (event.timestamp ev) <= maxTime) events ->
            r = group_failed stamp g (RangeError "Invalid time value"))
       | _ => r = analysis.empty
       end).
Proof.
  intros Hclock. apply toISOString_of_number in Hclock as (stamp & Hstamp).
  exists stamp. rewrite analyze_one_group. unfold group_results.
  rewrite Hstamp. simpl.
  destruct (send 0%nat (query s now g)) as [response|err].
  - destruct (cloudwatch.events response) as [[|ev evs]|] eqn:Ev.
    + exists analysis.empty. repeat split; [done|].
      intros ? [= <-]. by rewrite Ev.
    + destruct (processLogEvents_outcome cfg (ev :: evs) g) as (Hok & Herr).
      destruct (processLogEvents cfg (ev :: evs) g) as [batch|e] eqn:E.
      * exists (group_analysed g batch). repeat split; [done|].
        intros ? [= <-]. rewrite Ev. split; [eauto|].
        intros Hbad. destruct Hbad. apply Hok. eauto.
      * exists (group_failed stamp g e). repeat split; [done|].
        intros ? [= <-]. rewrite Ev. split.
        -- intros Hall. apply Hok in Hall as (? & ?). discriminate.
        -- intros _. by rewrite (Herr e eq_refl).
    + exists analysis.empty. repeat split; [done|].
      intros ? [= <-]. by rewrite Ev.
  - exists (group_failed stamp g err). repeat split; [|done].
    by intros ? [= <-].
Qed.

Lemma log_group_contribution_witness :
  exists stamp r,
    toISOString (Date_of_number 5000) = Ok stamp /\
    analyzeCloudWatchLogs config.defaults
      (with_logGroups settings.defaults [chars "/app/b"]) bad_instant 9000
      (fun _ => 5000) = Ok r /\
    r = group_failed stamp (chars "/app/b") (RangeError "Invalid time value").
Proof.
  destruct (log_group_contribution config.defaults settings.defaults
              bad_instant 9000 (fun _ => 5000) (chars "/app/b"))
    as (stamp & r & Hstamp & Hrun & _ & Hok).
  { vm_compute. discriminate. }
  exists stamp, r. split; [exact Hstamp|]. split; [exact Hrun|].
  specialize (Hok _ eq_refl). simpl in Hok. apply Hok.
  intros Hall. inversion Hall as [|? ? _ Hrest]; subst.
  inversion Hrest as [|? ? Hbad _]; subst. vm_compute in Hbad. by apply Hbad.
Defined.

Lemma map_size_union_le {A : Type} (m1 m2 : gmap string A) :
  (size (m1 ∪ m2) <= size m1 + size m2)%nat.
Proof.
  rewrite <- !(size_dom (D := gset string)), dom_union_L, size_union_alt.
  assert (size (dom m2 ∖ dom m1) <= size (dom m2 : gset string))%nat as Hle.
  { apply subseteq_size. intros k Hk. by apply elem_of_difference in Hk as [? _]. }
  lia.
Qed.

Lemma group_results_completes (cfg : config.t) (s : settings.t)
    (send : CloudWatchClient) (now : Z) (failureNow : nat -> Z) (i : nat)
    (g : str) :
  Z.abs (failureNow i) <= maxTime ->
  exists d, group_results cfg s send now failureNow i g = Ok d /\
            (size (analysis.metrics d) <= 1)%nat /\
            (forall name, is_Some (analysis.metrics d !! name) ->
                          name = string_of_list_ascii g).
Proof.
  intros Hclock. apply toISOString_of_number in Hclock as (stamp & Hstamp).
  unfold group_results. rewrite Hstamp. simpl.
  assert (forall e, exists d, Ok (group_failed stamp g e) = Ok d /\
            (size (analysis.metrics d) <= 1)%nat /\
            (forall name, is_Some (analysis.metrics d !! name) ->
                          name = string_of_list_ascii g)) as Hfail.
  { intros e. eexists. split; [reflexivity|]. simpl. split.
    - rewrite map_size_empty. lia.
    - intros name [? H]. by rewrite lookup_empty in H. }
  assert (exists d, Ok analysis.empty = Ok d /\
            (size (analysis.metrics d) <= 1)%nat /\
            (forall name, is_Some (analysis.metrics d !! name) ->
                          name = string_of_list_ascii g)) as Hempty.
  { eexists. split; [reflexivity|]. simpl. split.
    - rewrite map_size_empty. lia.
    - intros name [? H]. by rewrite lookup_empty in H. }
  destruct (send i _) as [response|err]; [|apply Hfail].
  destruct (cloudwatch.events response) as [[|ev evs]|]; try apply Hempty.
  destruct (processLogEvents _ _ _) as [batch|e]; [|apply Hfail].
  eexists. split; [reflexivity|]. simpl. split.
  - by rewrite map_size_singleton.
  - intros name [? H]. apply lookup_singleton_Some in H. by destruct H.
Qed.

(** The loop over the log groups completes, and keeps accumulators only
    under the names of the groups. *)
Lemma group_loop_completes (cfg : config.t) (s : settings.t)
    (send : CloudWatchClient) (now : Z) (failureNow : nat -> Z)
    (a : list str) : forall i st,
  (forall j, (j < length a)%nat -> Z.abs (failureNow (i + j)%nat) <= maxTime) ->
  exists r,
    forEach (fun i g st =>
               d ← group_results cfg s send now failureNow i g;
               Ok (append_results st d)) i a st = Ok r /\
    (size (analysis.metrics r) <= size (analysis.metrics st) + length a)%nat /\
    (forall name, is_Some (analysis.metrics r !! name) ->
       is_Some (analysis.metrics st !! name) \/
       exists g, In g a /\ name = string_of_list_ascii g).
Proof.
  induction a as [|g a IH]; intros i st Ha; simpl.
  - exists st. split; [done|]. split; [lia | auto].
  - destruct (group_results_completes cfg s send now failureNow i g)
      as (d & -> & Hsize & Hname).
    { specialize (Ha 0%nat). rewrite Nat.add_0_r in Ha. apply Ha. simpl. lia. }
    simpl.
    destruct (IH (S i) (append_results st d)) as (r & -> & Hsz & Hnm).
    { intros j Hj. specialize (Ha (S j)).
      rewrite Nat.add_succ_r in Ha. apply Ha. simpl. lia. }
    exists r. split; [done|]. split.
    + etransitivity; [exact Hsz|]. unfold append_results; simpl.
      pose proof (map_size_union_le (analysis.metrics d) (analysis.metrics st)).
      lia.
    + intros name Hin. destruct (Hnm name Hin) as [Hst|(g' & Hg' & ->)].
      * unfold append_results in Hst; simpl in Hst.
        destruct Hst as [x Hx]. apply lookup_union_Some_raw in Hx.
        destruct Hx as [Hx|[_ Hx]]; [|by left; eauto].
        right. exists g. split; [by left|]. apply Hname. eauto.
      * right. exists g'. split; [by right | done].
Qed.

(** X11. The analysis of the log groups completes whatever the service
    answers, as long as the clock is in range: it raises no exception for
    any failure of a retrieval or of a batch, it keeps an accumulator only
    under the names of configured log groups, and so at most one for each
    of them. *)
Theorem log_group_analysis_completes (cfg : config.t) (s : settings.t)
    (send : CloudWatchClient) (now : Z) (failureNow : nat -> Z) :
  (forall i, (i < length (settings.logGroups s))%nat ->
             Z.abs (failureNow i) <= maxTime) ->
  exists r,
    analyzeCloudWatchLogs cfg s send now failureNow = Ok r /\
    (size (analysis.metrics r) <= length (settings.logGroups s))%nat /\
    (forall name, is_Some (analysis.metrics r !! name) ->
       exists g, In g (settings.logGroups s) /\ name = string_of_list_ascii g).
Proof.
  intros Hclock. rewrite analyzeCloudWatchLogs_loop.
  destruct (group_loop_completes cfg s send now failureNow
              (settings.logGroups s) 0%nat analysis.empty)
    as (r & Hr & Hsz & Hnm).
  { intros j Hj. by apply Hclock. }
  exists r. split; [exact Hr|]. split.
  - simpl in Hsz. by rewrite map_size_empty in Hsz.
  - intros name Hin. destruct (Hnm name Hin) as [[? H]|H]; [|exact H].
    simpl in H. by rewrite lookup_empty in H.
Qed.

Lemma log_group_analysis_completes_witness :
  exists r,
    analyzeCloudWatchLogs config.defaults two_groups one_up_one_down 9000
      (fun _ => 5000) = Ok r /\
    (size (analysis.metrics r) <= 2)%nat.
Proof.
  destruct (log_group_analysis_completes config.defaults two_groups
              one_up_one_down 9000 (fun _ => 5000))
    as (r & Hr & Hsize & _).
  { intros i _. vm_compute. discriminate. }
  exists r. split; [exact Hr | exact Hsize].
Defined.

(** ** The files of the bucket *)

Lemma forEach_total {A St : Type} (f : nat -> A -> St -> St) (a : list A) :
  forall i st, exists st',
    forEach (fun i x st => Ok (f i x st)) i a st = Ok st'.
Proof.
  induction a as [|x a IH]; intros i st; simpl; [eauto | apply IH].
Qed.

(** The loop over the files adds the results of each selected file. *)
Lemma analyzeS3Logs_loop (cfg : config.t) (s : settings.t) (cl : S3Client)
    (localTZA : Z) (now : Z) (lineNow : nat -> nat -> Z) (failureNow : Z)
    (listing : option (list s3.Object)) :
  s3Client_list cl
    {| s3.Bucket := settings.bucket (settings.s3Config s);
       s3.Prefix := settings.prefix (settings.s3Config s);
       s3.MaxKeys := 100 |} = Ok listing ->
  analyzeS3Logs cfg s cl localTZA now lineNow failureNow
  = forEach (fun i file st =>
               Ok (append_results st
                     (file_results cfg s cl localTZA lineNow i file)))
      0%nat (selected s now (default [] listing)) analysis.empty.
Proof.
  intros Hlist. unfold analyzeS3Logs. rewrite Hlist.
  unfold mbind, result_bind, bind.
  destruct listing as [[|file files]|]; [done| |done].
  cbn [default id]. fold (is_recent s now).
  fold (selected s now (file :: files)).
  match goal with
  | |- match ?x with _ => _ end = _ =>
      replace x with
        (forEach (fun i file st =>
               Ok (append_results st
                     (file_results cfg s cl localTZA lineNow i file)))
           0%nat (selected s now (file :: files)) analysis.empty)
  end.
  - by destruct (forEach_total
                   (fun i file st =>
                      append_results st
                        (file_results cfg s cl localTZA lineNow i file))
                   (selected s now (file :: files)) 0%nat analysis.empty)
      as (st' & ->).
  - apply forEach_ext. intros i f [e m v].
    unfold file_results, append_results, Object_assign.
    destruct (processS3LogFile _ _ _ _ _ _ _) as [r|err]; simpl; [done|].
    by rewrite !app_nil_r, (left_id_L ∅ (∪)).
Qed.

(** What a loop that only adds results leaves: the lists of all steps one
    after another. *)
Lemma forEach_appended {A : Type} (g : nat -> A -> analysis.t) (a : list A) :
  forall k st r,
    forEach (fun i x st => Ok (append_results st (g i x))) k a st = Ok r ->
    analysis.errors r
    = analysis.errors st
      ++ concat (imap (fun j x => analysis.errors (g (k + j)%nat x)) a) /\
    analysis.violations r
    = analysis.violations st
      ++ concat (imap (fun j x => analysis.violations (g (k + j)%nat x)) a).
Proof.
  induction a as [|x a IH]; intros k st r H; simpl in H.
  - injection H as <-. simpl. by rewrite !app_nil_r.
  - apply IH in H as (He & Hv). rewrite He, Hv. simpl.
    rewrite Nat.add_0_r, <- !app_assoc. split; do 2 f_equal.
    + f_equal. apply imap_ext. intros j y _. simpl. f_equal. f_equal. lia.
    + f_equal. apply imap_ext. intros j y _. simpl. f_equal. f_equal. lia.
Qed.

(** X12. The analysis of the bucket completes whatever the bucket and its
    files do, as long as the clock is in range when a failure of the listing
    is recorded.  A failure of the listing is reported by exactly one entry
    of source 's3-analyzer' with the message of the error.  After a listing
    that succeeded, the errors and the violations are those of the selected
    files that were processed, in the order of the listing; a file whose
    retrieval, inflation, decoding or lines raise an exception adds nothing,
    not even an entry that reports it. *)
Theorem bucket_analysis_completes (cfg : config.t) (s : settings.t)
    (cl : S3Client) (localTZA : Z) (now : Z) (lineNow : nat -> nat -> Z)
    (failureNow : Z) :
  (forall e, s3Client_list cl (listing_query s) = Throw e ->
             Z.abs failureNow <= maxTime) ->
  exists r,
    analyzeS3Logs cfg s cl localTZA now lineNow failureNow = Ok r /\
    (forall e, s3Client_list cl (listing_query s) = Throw e ->
       exists stamp, toISOString (Date_of_number failureNow) = Ok stamp /\
                     r = listing_failed stamp e) /\
    (forall listing, s3Client_list cl (listing_query s) = Ok listing ->
       let files := selected s now (default [] listing) in
       let outcome i file :=
         processS3LogFile cfg s cl localTZA i (lineNow i) (s3.Key file) in
       analysis.errors r
       = concat (imap (fun i file =>
                         match outcome i file with
                         | Ok fileResults => errors fileResults
                         | Throw _ => []
                         end) files) /\
       analysis.violations r
       = concat (imap (fun i file =>
                         match outcome i file with
                         | Ok fileResults => violations fileResults
                         | Throw _ => []
                         end) files)).
Proof.
  intros Hclock.
  destruct (s3Client_list cl (listing_query s)) as [listing|e] eqn:Hlist.
  - rewrite (analyzeS3Logs_loop _ _ _ _ _ _ _ listing Hlist).
    destruct (forEach_total
                (fun i file st =>
                   append_results st
                     (file_results cfg s cl localTZA lineNow i file))
                (selected s now (default [] listing)) 0%nat analysis.empty)
      as (r & Hr).
    exists r. split; [exact Hr|]. split; [done|].
    intros ? [= <-]. cbv zeta.
    apply forEach_appended in Hr as (He & Hv). rewrite He, Hv. simpl.
    split; f_equal; apply imap_ext; intros i file _; unfold file_results;
      by destruct (processS3LogFile _ _ _ _ _ _ _).
  - destruct (proj2 (toISOString_of_number failureNow) (Hclock e eq_refl))
      as (stamp & Hstamp).
    exists (listing_failed stamp e). unfold analyzeS3Logs.
    fold (listing_query s). rewrite Hlist. simpl. rewrite Hstamp. simpl.
    split; [done|]. split; [|done].
    intros ? [= <-]. eauto.
Qed.

Lemma analyzeS3Logs_listing (cfg : config.t) (s : settings.t) (cl : S3Client)
    (localTZA : Z) (now : Z) (lineNow : nat -> nat -> Z) (failureNow : Z)
    (contents : list s3.Object) :
  analyzeS3Logs cfg s (with_listing cl (Ok (Some contents))) localTZA now
    lineNow failureNow
  = forEach (fun i file st =>
               Ok (append_results st
                     (file_results cfg s cl localTZA lineNow i file)))
      0%nat (selected s now contents) analysis.empty.
Proof. by rewrite (analyzeS3Logs_loop _ _ _ _ _ _ _ (Some contents)). Qed.

Lemma filter_all {A : Type} (p : A -> bool) (l : list A) :
  List.Forall (fun x => p x = true) l -> List.filter p l = l.
Proof.
  induction 1 as [|x l Hx _ IH]; simpl; [done|]. by rewrite Hx, IH.
Qed.

Lemma Forall_firstn {A : Type} (P : A -> Prop) (n : nat) (l : list A) :
  List.Forall P l -> List.Forall P (firstn n l).
Proof.
  intros H. revert n. induction H as [|x l Hx _ IH]; intros [|n]; simpl;
    constructor; auto.
Qed.

Lemma In_firstn {A : Type} (x : A) (n : nat) : forall l,
  In x (firstn n l) -> In x l.
Proof.
  induction n as [|n IH]; intros [|y l] H; simpl in *; try done.
  destruct H as [H|H]; [by left | right; by apply IH].
Qed.

Lemma filter_holds {A : Type} (p : A -> bool) (l : list A) :
  List.Forall (fun x => p x = true) (List.filter p l).
Proof.
  induction l as [|x l IH]; simpl; [constructor|].
  destruct (p x) eqn:E; [by constructor | done].
Qed.

Lemma selected_selected (s : settings.t) (now : Z) (contents : list s3.Object) :
  selected s now (selected s now contents) = selected s now contents.
Proof.
  unfold selected at 1.
  rewrite filter_all.
  - unfold selected. by rewrite firstn_firstn, Nat.min_id.
  - unfold selected. apply Forall_firstn, filter_holds.
Qed.

(** X13. Only the recent files count, and of those the first ten: the
    analysis of a listing is the analysis of its first ten files modified
    strictly after the cutoff (the clock less the lookback), and a file
    modified at the cutoff or before it can be added to the listing or
    taken from it, anywhere, without any change of the results. *)
Theorem only_ten_recent_files_count (cfg : config.t) (s : settings.t)
    (cl : S3Client) (localTZA : Z) (now : Z) (lineNow : nat -> nat -> Z)
    (failureNow : Z) (contents : list s3.Object) :
  analyzeS3Logs cfg s (with_listing cl (Ok (Some contents))) localTZA now
    lineNow failureNow
  = analyzeS3Logs cfg s
      (with_listing cl (Ok (Some (selected s now contents)))) localTZA now
      lineNow failureNow
  /\ (length (selected s now contents) <= 10)%nat
  /\ (forall file, In file (selected s now contents) ->
        In file contents /\
        now - settings.lookbackMinutes (settings.analysis s) * 60000
        < s3.LastModified file)
  /\ (forall before old after,
        contents = before ++ old :: after ->
        s3.LastModified old
        <= now - settings.lookbackMinutes (settings.analysis s) * 60000 ->
        analyzeS3Logs cfg s (with_listing cl (Ok (Some contents))) localTZA
          now lineNow failureNow
        = analyzeS3Logs cfg s (with_listing cl (Ok (Some (before ++ after))))
            localTZA now lineNow failureNow).
Proof.
  split; [|split; [|split]].
  - by rewrite !analyzeS3Logs_listing, selected_selected.
  - unfold selected. rewrite length_firstn. lia.
  - intros file Hin. unfold selected in Hin.
    apply In_firstn in Hin.
    apply List.filter_In in Hin as (Hin & Hrecent). split; [exact Hin|].
    unfold is_recent in Hrecent. by apply Z.ltb_lt in Hrecent.
  - intros before old after -> Hold. rewrite !analyzeS3Logs_listing.
    unfold selected. rewrite !List.filter_app. simpl.
    replace (is_recent s now old) with false; [done|].
    symmetry. unfold is_recent. apply Z.ltb_ge. exact Hold.
Qed.

Lemma bucket_analysis_completes_witness :
  exists stamp,
    toISOString (Date_of_number 5000) = Ok stamp /\
    analyzeS3Logs config.defaults settings.defaults bucket_down 0 3600000
      (fun _ _ => 5000) 5000
    = Ok (listing_failed stamp (Failure "NoSuchBucket")).
Proof.
  destruct (bucket_analysis_completes config.defaults settings.defaults
              bucket_down 0 3600000 (fun _ _ => 5000) 5000)
    as (r & Hr & Hfail & _).
  { intros _ _. vm_compute. discriminate. }
  destruct (Hfail (Failure "NoSuchBucket") eq_refl) as (stamp & Hstamp & ->).
  exists stamp. split; [exact Hstamp | exact Hr].
Defined.

(** ** A file as a whole *)

Lemma forEach_throws {A St : Type} (f : nat -> A -> St -> result St) (x : A)
    (a : list A) :
  In x a -> (forall i st, exists e, f i x st = Throw e) ->
  forall i st, exists e, forEach f i a st = Throw e.
Proof.
  intros Hin Hx. induction a as [|y a IH]; intros i st; [done|]. simpl.
  destruct (f i y st) as [st1|e] eqn:E; simpl; [|eauto].
  destruct Hin as [->|Hin]; [|by apply IH].
  destruct (Hx i st) as (e & He). congruence.
Qed.

Lemma extractTimestamp_error (localTZA : Z) (line : str) (e : exn) :
  extractTimestamp localTZA line = Throw e ->
  e = RangeError "Invalid time value".
Proof.
  rewrite extractTimestamp_cases.
  destruct (first_match line timestampPatterns) as [m|]; [|discriminate].
  destruct (Date_parse localTZA (capture m 1)) as [t|]; [|by intros [= <-]].
  destruct (toISOString_valid t) as (iso & ->). discriminate.
Qed.

(** The lines of a file are lost to a single poisoned one, and no other
    exception than that of an invalid time leaves the loop. *)
Lemma processLogLines_poisoned (cfg : config.t) (localTZA : Z)
    (clock : nat -> Z) (lines : list str) (source : str) :
  (forall e, processLogLines cfg localTZA clock lines source = Throw e ->
             e = RangeError "Invalid time value")
  /\ (forall line, In line lines -> poisoned cfg localTZA line ->
        processLogLines cfg localTZA clock lines source
        = Throw (RangeError "Invalid time value")).
Proof.
  unfold processLogLines.
  match goal with
  | |- context [forEach ?f ?i ?a ?st] => set (F := f); set (st0 := st)
  end.
  assert (forall e, forEach F 0%nat lines st0 = Throw e ->
                    e = RangeError "Invalid time value") as Herr.
  { apply forEach_error. intros i line st e H. unfold F in H.
    destruct (isError cfg line); simpl in H; [|discriminate].
    destruct (extractTimestamp localTZA line) as [[t|]|e1] eqn:Et;
      simpl in H.
    - discriminate.
    - destruct (toISOString _) as [iso|e2] eqn:Eiso; simpl in H;
        [discriminate|].
      injection H as <-. by eapply toISOString_error.
    - injection H as <-. by eapply extractTimestamp_error. }
  split.
  - intros e H. destruct (forEach F 0%nat lines st0) eqn:E; [discriminate|].
    simpl in H. injection H as <-. by apply Herr.
  - intros line Hin (Hcls & e & He).
    destruct (forEach_throws F line lines Hin) with (i := 0%nat) (st := st0)
      as (e' & He').
    { intros i st. unfold F. rewrite Hcls, He. simpl. eauto. }
    rewrite He'. simpl. by rewrite (Herr e' He').
Qed.

(** X14. A file is lost to a single line: when one line of a file is taken
    for an error by the classifier and carries, in the place of a
    timestamp, a text that is not a date, the processing of the file ends
    with the [RangeError] of an invalid time, and the analysis of a bucket
    that lists this file alone returns no error, no accumulator and no
    violation: the other error lines of the file are not reported and
    nothing reports the loss. *)
Theorem poisoned_line_loses_the_file (cfg : config.t) (s : settings.t)
    (cl : S3Client) (localTZA : Z) (now : Z) (lineNow : nat -> nat -> Z)
    (failureNow : Z) (file : s3.Object) (body content line : str) :
  s3Client_get cl 0%nat
    {| s3.GetBucket := settings.bucket (settings.s3Config s);
       s3.GetKey := s3.Key file |} = Ok body ->
  (if endsWith (s3.Key file) (chars ".gz") then gunzip_toString cl body
   else transformToString cl body) = Ok content ->
  In line (lines_of content) ->
  poisoned cfg localTZA line ->
  processS3LogFile cfg s cl localTZA 0%nat (lineNow 0%nat) (s3.Key file)
  = Throw (RangeError "Invalid time value")
  /\ analyzeS3Logs cfg s (with_listing cl (Ok (Some [file]))) localTZA now
       lineNow failureNow
     = Ok analysis.empty.
Proof.
  intros Hget Hdecode Hin Hpoisoned.
  assert (processS3LogFile cfg s cl localTZA 0%nat (lineNow 0%nat) (s3.Key file)
          = Throw (RangeError "Invalid time value")) as Hfile.
  { unfold processS3LogFile, mbind, result_bind, bind.
    rewrite Hget, Hdecode.
    by apply (proj2 (processLogLines_poisoned _ _ _ _ _) line). }
  split; [exact Hfile|].
  rewrite analyzeS3Logs_listing. unfold selected. simpl.
  destruct (is_recent s now file); simpl; [|done].
  unfold file_results. by rewrite Hfile.
Qed.

Lemma poisoned_line_loses_the_file_witness :
  analyzeS3Logs config.defaults settings.defaults
    (with_listing poisoned_bucket
       (Ok (Some [ {| s3.Key := chars "logs/app.log";
                      s3.LastModified := 3590000 |} ])))
    0 3600000 (fun _ _ => 5000) 5000
  = Ok analysis.empty.
Proof.
  apply (poisoned_line_loses_the_file config.defaults settings.defaults
           poisoned_bucket 0 3600000 (fun _ _ => 5000) 5000
           {| s3.Key := chars "logs/app.log"; s3.LastModified := 3590000 |}
           poisoned_text poisoned_text (chars "ERROR at 13/45/2023 99:99:99")).
  - reflexivity.
  - reflexivity.
  - vm_compute. right. by left.
  - split; [vm_compute; reflexivity|]. eexists. vm_compute. reflexivity.
Defined.

(** ** The files one by one *)

Lemma selected_all (s : settings.t) (now : Z) (files : list s3.Object) :
  List.Forall (fun file => is_recent s now file = true) files ->
  (length files <= 10)%nat ->
  selected s now files = files.
Proof.
  intros Hall Hlen. unfold selected. rewrite filter_all by exact Hall.
  by apply firstn_all2.
Qed.

(** X15. The selected files are analysed independently of each other: for
    recent files, ten at most, the analysis of a listing followed by
    another is the analysis of the first, then that of the second (at the
    calls and clock readings that follow), with the errors and violations
    of the two put one after the other, and with the properties of the
    accumulator of the second replacing those of the first. *)
Theorem files_are_independent (cfg : config.t) (s : settings.t)
    (cl : S3Client) (localTZA : Z) (now : Z) (lineNow : nat -> nat -> Z)
    (failureNow : Z) (files1 files2 : list s3.Object) :
  List.Forall (fun file => is_recent s now file = true) (files1 ++ files2) ->
  (length (files1 ++ files2) <= 10)%nat ->
  analyzeS3Logs cfg s (with_listing cl (Ok (Some (files1 ++ files2))))
    localTZA now lineNow failureNow
  = (r1 ← analyzeS3Logs cfg s (with_listing cl (Ok (Some files1))) localTZA
            now lineNow failureNow;
     r2 ← analyzeS3Logs cfg s
            (with_listing (calls_from (length files1) cl) (Ok (Some files2)))
            localTZA now (fun i => lineNow (length files1 + i)%nat) failureNow;
     Ok (append_results r1 r2)).
Proof.
  intros Hall Hlen. rewrite !analyzeS3Logs_listing.
  rewrite (selected_all _ _ _ Hall Hlen).
  apply Forall_app in Hall as (Hall1 & Hall2). rewrite length_app in Hlen.
  rewrite (selected_all _ _ files1 Hall1), (selected_all _ _ files2 Hall2)
    by lia.
  rewrite forEach_app, (Nat.add_comm 0 (length files1)).
  destruct (forEach _ 0%nat files1 analysis.empty) as [r1|e]; simpl; [|done].
  rewrite forEach_shift.
  rewrite (forEach_frame _ append_results analysis.empty
             append_results_assoc append_results_empty).
  - reflexivity.
  - intros i file st. simpl. unfold append_results at 3. simpl.
    do 2 f_equal.
    destruct (file_results _ _ _ _ _ _ _) as [de dm dv]; simpl.
    by rewrite (right_id_L ∅ (∪)).
Qed.

Lemma files_are_independent_witness :
  analyzeS3Logs config.defaults settings.defaults
    (with_listing sample_bucket
       (Ok (Some ([ {| s3.Key := chars "logs/app.log";
                       s3.LastModified := 3590000 |} ]
                  ++ [ {| s3.Key := chars "logs/api.log.gz";
                          s3.LastModified := 3595000 |} ]))))
    0 3600000 (fun _ _ => 5000) 5000
  = (r1 ← analyzeS3Logs config.defaults settings.defaults
            (with_listing sample_bucket
               (Ok (Some [ {| s3.Key := chars "logs/app.log";
                              s3.LastModified := 3590000 |} ])))
            0 3600000 (fun _ _ => 5000) 5000;
     r2 ← analyzeS3Logs config.defaults settings.defaults
            (with_listing (calls_from 1 sample_bucket)
               (Ok (Some [ {| s3.Key := chars "logs/api.log.gz";
                              s3.LastModified := 3595000 |} ])))
            0 3600000 (fun _ _ => 5000) 5000;
     Ok (append_results r1 r2)).
Proof.
  apply (files_are_independent config.defaults settings.defaults sample_bucket
           0 3600000 (fun _ _ => 5000) 5000
           [ {| s3.Key := chars "logs/app.log"; s3.LastModified := 3590000 |} ]
           [ {| s3.Key := chars "logs/api.log.gz";
                s3.LastModified := 3595000 |} ]).
  - repeat constructor.
  - simpl. lia.
Defined.

(** ** The accumulator of the bucket *)

Lemma forEach_indexed {A St : Type} (P : list A -> St -> Prop)
    (f : nat -> A -> St -> result St) :
  (forall pre x st st',
     P pre st -> f (length pre) x st = Ok st' -> P (pre ++ [x]) st') ->
  forall a pre st st',
    P pre st -> forEach f (length pre) a st = Ok st' -> P (pre ++ a) st'.
Proof.
  intros Hstep. induction a as [|x a IH]; intros pre st st' HP H; simpl in H.
  - injection H as <-. by rewrite app_nil_r.
  - destruct (f (length pre) x st) as [st1|e] eqn:E; [|discriminate].
    replace (pre ++ x :: a) with ((pre ++ [x]) ++ a)
      by (by rewrite <- app_assoc).
    apply (IH _ st1); [by apply (Hstep pre x st)|].
    rewrite length_app. simpl. by rewrite Nat.add_1_r.
Qed.

Lemma extractMetrics_shape (message : str) (m : Metrics) :
  is_Some (responseTimes m) -> is_Some (statusCodes m) ->
  is_Some (responseTimes (extractMetrics message m)) /\
  is_Some (statusCodes (extractMetrics message m)).
Proof.
  intros Hr Hs. unfold extractMetrics.
  destruct (str_match message responseTimePattern);
    destruct (str_match message memoryPattern);
    destruct (str_match message statusPattern); simpl; eauto.
Qed.

(** The accumulator of a file that was processed. *)
Lemma processLogLines_shape (cfg : config.t) (localTZA : Z)
    (clock : nat -> Z) (lines : list str) (source : str) (r : Results) :
  processLogLines cfg localTZA clock lines source = Ok r ->
  totalEvents (metrics r) = None /\
  totalLines (metrics r) = Some (Z.of_nat (length lines)) /\
  is_Some (responseTimes (metrics r)) /\
  is_Some (statusCodes (metrics r)).
Proof.
  unfold processLogLines. intros H.
  match type of H with
  | mbind _ (forEach ?f ?i ?a ?st) = _ =>
      destruct (forEach f i a st) as [r1|e] eqn:E
  end; [|discriminate].
  injection H as <-. cbn [metrics push_violations].
  eapply (forEach_invariant
            (fun st => totalEvents (metrics st) = None /\
                       totalLines (metrics st) = Some (Z.of_nat (length lines)) /\
                       is_Some (responseTimes (metrics st)) /\
                       is_Some (statusCodes (metrics st))));
    [| |exact E]; [|simpl; eauto].
  intros i line st st' (He & Hl & Hr & Hs) Hstep. cbn beta in Hstep.
  assert (forall st1,
            (totalEvents (metrics st1) = None /\
             totalLines (metrics st1) = Some (Z.of_nat (length lines)) /\
             is_Some (responseTimes (metrics st1)) /\
             is_Some (statusCodes (metrics st1))) ->
            Ok (set_metrics st1 (extractMetrics line (metrics st1))) = Ok st' ->
            totalEvents (metrics st') = None /\
            totalLines (metrics st') = Some (Z.of_nat (length lines)) /\
            is_Some (responseTimes (metrics st')) /\
            is_Some (statusCodes (metrics st'))) as Hfinish.
  { intros st1 (He1 & Hl1 & Hr1 & Hs1) [= <-]. cbn [metrics set_metrics].
    destruct (extractMetrics_counters line (metrics st1)) as (-> & -> & _).
    destruct (extractMetrics_shape line (metrics st1) Hr1 Hs1). done. }
  destruct (isError cfg line); simpl in Hstep.
  - destruct (extractTimestamp localTZA line) as [[t|]|e1]; simpl in Hstep;
      [| |discriminate].
    + eapply Hfinish; [|exact Hstep]. simpl; eauto.
    + destruct (toISOString _) as [iso|e2]; simpl in Hstep; [|discriminate].
      eapply Hfinish; [|exact Hstep]. simpl; eauto.
  - eapply Hfinish; [|exact Hstep]. eauto.
Qed.

Lemma properties_of_fields (m : Metrics) : holds_fields (properties_of m) m.
Proof.
  unfold holds_fields, properties_of, set_present.
  destruct (totalEvents m), (totalLines m), (responseTimes m),
    (memoryUsage m), (statusCodes m); simpl; by simplify_map_eq.
Qed.

Lemma properties_of_names (m : Metrics) :
  totalEvents m = None -> is_Some (totalLines m) ->
  is_Some (responseTimes m) -> is_Some (statusCodes m) ->
  dom (properties_of m) = line_fields \/
  dom (properties_of m) = line_fields ∪ {[ "memoryUsage" ]}.
Proof.
  unfold properties_of, set_present, line_fields.
  intros -> [l ->] [rt ->] [sc ->].
  destruct (memoryUsage m); [right | left];
    rewrite ?dom_insert_L, dom_empty_L; set_solver.
Qed.

Lemma line_fields_size :
  size line_fields = 4%nat /\ size (line_fields ∪ {[ "memoryUsage" ]}) = 5%nat.
Proof. split; reflexivity. Qed.

Lemma processS3LogFile_shape (cfg : config.t) (s : settings.t) (cl : S3Client)
    (localTZA : Z) (i : nat) (clock : nat -> Z) (key : str) (r : Results) :
  processS3LogFile cfg s cl localTZA i clock key = Ok r ->
  totalEvents (metrics r) = None /\
  is_Some (totalLines (metrics r)) /\
  is_Some (responseTimes (metrics r)) /\
  is_Some (statusCodes (metrics r)).
Proof.
  unfold processS3LogFile, mbind, result_bind, bind. intros H.
  destruct (s3Client_get cl i _) as [body|e]; [|discriminate].
  destruct (if endsWith key (chars ".gz") then _ else _) as [content|e];
    [|discriminate].
  apply processLogLines_shape in H as (He & Hl & Hr & Hs).
  rewrite Hl. eauto.
Qed.

Lemma holds_fields_union (m : Metrics) (obj : gmap string property) :
  is_Some (totalLines m) -> is_Some (responseTimes m) ->
  is_Some (statusCodes m) ->
  holds_fields (properties_of m ∪ obj) m.
Proof.
  intros [l Hl] [rt Hrt] [sc Hsc].
  destruct (properties_of_fields m) as (H1 & H2 & H3 & H4).
  rewrite Hl in H1. rewrite Hrt in H3. rewrite Hsc in H4.
  unfold holds_fields. rewrite Hl, Hrt, Hsc. simpl in *.
  repeat split; by apply lookup_union_Some_l.
Qed.

(** What the loop over the files leaves in the accumulator. *)
Lemma bucket_loop_accumulator (cfg : config.t) (s : settings.t)
    (cl : S3Client) (localTZA : Z) (lineNow : nat -> nat -> Z)
    (files : list s3.Object) (r : analysis.t) :
  let outcome i file :=
    processS3LogFile cfg s cl localTZA i (lineNow i) (s3.Key file) in
  forEach (fun i file st =>
             Ok (append_results st
                   (file_results cfg s cl localTZA lineNow i file)))
    0%nat files analysis.empty = Ok r ->
  (dom (analysis.metrics r) = (∅ : gset string) \/
   dom (analysis.metrics r) = line_fields \/
   dom (analysis.metrics r) = line_fields ∪ {[ "memoryUsage" ]})
  /\ ((forall i file, files !! i = Some file ->
                      exists e, outcome i file = Throw e) ->
      analysis.metrics r = ∅)
  /\ (forall i file fileResults,
        files !! i = Some file ->
        outcome i file = Ok fileResults ->
        (forall j later, (i < j)%nat -> files !! j = Some later ->
                         exists e, outcome j later = Throw e) ->
        holds_fields (analysis.metrics r) (metrics fileResults)).
Proof.
  intros outcome Hrun. change files with ([] ++ files).
  eapply (forEach_indexed
            (fun pre st =>
               (dom (analysis.metrics st) = (∅ : gset string) \/
                dom (analysis.metrics st) = line_fields \/
                dom (analysis.metrics st) = line_fields ∪ {[ "memoryUsage" ]})
               /\ ((forall i file, pre !! i = Some file ->
                                   exists e, outcome i file = Throw e) ->
                   analysis.metrics st = ∅)
               /\ (forall i file fileResults,
                     pre !! i = Some file ->
                     outcome i file = Ok fileResults ->
                     (forall j later, (i < j)%nat -> pre !! j = Some later ->
                                      exists e, outcome j later = Throw e) ->
                     holds_fields (analysis.metrics st) (metrics fileResults))));
    [| |exact Hrun].
  - intros pre x st st' (Hd & Hn & Hl) [= <-].
    unfold file_results. fold (outcome (length pre) x).
    destruct (outcome (length pre) x) as [fr0|err] eqn:Hx.
    + destruct (processS3LogFile_shape _ _ _ _ _ _ _ _ Hx)
        as (He0 & Hl0 & Hr0 & Hs0).
      unfold append_results; cbn [analysis.metrics].
      split; [|split].
      * rewrite dom_union_L.
        destruct (properties_of_names _ He0 Hl0 Hr0 Hs0) as [-> | ->];
          destruct Hd as [-> | [-> | ->]]; set_solver.
      * intros Hall. destruct (Hall (length pre) x) as (e & He).
        { by rewrite lookup_app_r, Nat.sub_diag by lia. }
        congruence.
      * intros i file fr Hi Hok Hlater.
        apply lookup_app_Some in Hi as [Hi | (Hge & Hi)].
        -- destruct (Hlater (length pre) x) as (e & He).
           { by apply lookup_lt_Some in Hi. }
           { by rewrite lookup_app_r, Nat.sub_diag by lia. }
           congruence.
        -- apply list_lookup_singleton_Some in Hi as (Hi & <-).
           replace i with (length pre) in Hok by lia.
           rewrite Hx in Hok. injection Hok as <-.
           by apply holds_fields_union.
    + unfold append_results; cbn [analysis.metrics analysis.empty].
      rewrite (left_id_L ∅ (∪)). split; [exact Hd|]. split.
      * intros Hall. apply Hn. intros i file Hi. apply Hall.
        by apply lookup_app_l_Some.
      * intros i file fr Hi Hok Hlater.
        apply lookup_app_Some in Hi as [Hi | (Hge & Hi)].
        -- apply (Hl i file fr Hi Hok). intros j later Hj Hjl.
           apply (Hlater j later Hj). by apply lookup_app_l_Some.
        -- apply list_lookup_singleton_Some in Hi as (Hi & <-).
           replace i with (length pre) in Hok by lia. congruence.
  - simpl. split; [by left; rewrite dom_empty_L|]. split; [done|].
    intros i file fr Hi. by rewrite lookup_nil in Hi.
Qed.

Lemma analyzeS3Logs_size (cfg : config.t) (s : settings.t)
    (cl : S3Client) (localTZA : Z) (now : Z) (lineNow : nat -> nat -> Z)
    (failureNow : Z) (r : analysis.t) :
  analyzeS3Logs cfg s cl localTZA now lineNow failureNow = Ok r ->
  size (analysis.metrics r) = 0%nat \/ size (analysis.metrics r) = 4%nat \/
  size (analysis.metrics r) = 5%nat.
Proof.
  intros Hrun.
  destruct (s3Client_list cl (listing_query s)) as [listing|e] eqn:Hlist.
  - rewrite (analyzeS3Logs_loop _ _ _ _ _ _ _ listing Hlist) in Hrun.
    apply bucket_loop_accumulator in Hrun as (Hdom & _).
    destruct line_fields_size as (H4 & H5).
    rewrite <- (size_dom (D := gset string)).
    destruct Hdom as [-> | [-> | ->]]; auto.
  - unfold analyzeS3Logs in Hrun. fold (listing_query s) in Hrun.
    rewrite Hlist in Hrun. simpl in Hrun.
    destruct (toISOString _); [|discriminate]. simpl in Hrun.
    injection Hrun as <-. simpl. by left.
Qed.

(** X16. The accumulator of the bucket describes one file, not the bucket:
    the fields of each processed file replace those of the files before it,
    so that after any number of files the accumulator has no property at
    all (no file was processed), or the four or five fields of an
    accumulator of lines, with the line total, the error count, the
    response-time samples and the status tallies of the last file that was
    processed; nothing is added up over the files. *)
Theorem bucket_accumulator_is_of_one_file (cfg : config.t) (s : settings.t)
    (cl : S3Client) (localTZA : Z) (now : Z) (lineNow : nat -> nat -> Z)
    (failureNow : Z) (r : analysis.t) :
  analyzeS3Logs cfg s cl localTZA now lineNow failureNow = Ok r ->
  (size (analysis.metrics r) = 0%nat \/ size (analysis.metrics r) = 4%nat \/
   size (analysis.metrics r) = 5%nat)
  /\ (forall listing, s3Client_list cl (listing_query s) = Ok listing ->
        let files := selected s now (default [] listing) in
        let outcome i file :=
          processS3LogFile cfg s cl localTZA i (lineNow i) (s3.Key file) in
        ((forall i file, files !! i = Some file ->
                         exists e, outcome i file = Throw e) ->
         analysis.metrics r = ∅)
        /\ (forall i file fileResults,
              files !! i = Some file ->
              outcome i file = Ok fileResults ->
              (forall j later, (i < j)%nat -> files !! j = Some later ->
                               exists e, outcome j later = Throw e) ->
              holds_fields (analysis.metrics r) (metrics fileResults))).
Proof.
  intros Hrun. split; [by eapply analyzeS3Logs_size|].
  intros listing Hlist.
  rewrite (analyzeS3Logs_loop _ _ _ _ _ _ _ listing Hlist) in Hrun.
  apply bucket_loop_accumulator in Hrun as (_ & Hnone & Hlast).
  cbv zeta. split; [exact Hnone | exact Hlast].
Qed.

Lemma bucket_accumulator_is_of_one_file_witness :
  exists r,
    analyzeS3Logs config.defaults settings.defaults sample_bucket 0 3600000
      (fun _ _ => 5000) 5000 = Ok r /\
    analysis.metrics r !! "totalLines" = Some (PNumber 3).
Proof.
  destruct (analyzeS3Logs config.defaults settings.defaults sample_bucket 0
              3600000 (fun _ _ => 5000) 5000) as [r|e] eqn:E;
    [|vm_compute in E; discriminate].
  exists r. split; [reflexivity|].
  destruct (bucket_accumulator_is_of_one_file _ _ _ _ _ _ _ r E)
    as (_ & Hfiles).
  destruct (Hfiles _ eq_refl) as (_ & Hlast).
  destruct (processS3LogFile config.defaults settings.defaults sample_bucket 0
              0%nat (fun _ => 5000) (chars "logs/app.log")) as [fr|e] eqn:Efile;
    [|vm_compute in Efile; discriminate].
  destruct (Hlast 0%nat {| s3.Key := chars "logs/app.log";
                           s3.LastModified := 3590000 |} fr) as (Hlines & _).
  - reflexivity.
  - exact Efile.
  - intros [|[|j]] later Hj Hlater; [lia | | by vm_compute in Hlater].
    vm_compute in Hlater. injection Hlater as <-. eexists. vm_compute.
    reflexivity.
  - rewrite Hlines. assert (totalLines (metrics fr) = Some 3) as ->; [|done].
    vm_compute in Efile. by injection Efile as <-.
Defined.

(** ** The report *)

Lemma analyzeS3Logs_completes (cfg : config.t) (s : settings.t)
    (cl : S3Client) (localTZA : Z) (now : Z) (lineNow : nat -> nat -> Z)
    (failureNow : Z) :
  (forall e, s3Client_list cl (listing_query s) = Throw e ->
             Z.abs failureNow <= maxTime) ->
  exists r, analyzeS3Logs cfg s cl localTZA now lineNow failureNow = Ok r.
Proof.
  intros Hclock.
  destruct (s3Client_list cl (listing_query s)) as [listing|e] eqn:Hlist.
  - rewrite (analyzeS3Logs_loop _ _ _ _ _ _ _ listing Hlist).
    apply (forEach_total
             (fun i file st =>
                append_results st
                  (file_results cfg s cl localTZA lineNow i file))).
  - destruct (proj2 (toISOString_of_number failureNow) (Hclock e eq_refl))
      as (stamp & Hstamp).
    unfold analyzeS3Logs. fold (listing_query s). rewrite Hlist. simpl.
    rewrite Hstamp. simpl. eauto.
Qed.

(** X17. The report of a run: with the clock in range where it is read,
    the analysis as a whole completes whatever the two services do; the
    totals of its summary are the lengths of the lists of errors and of
    violations that it carries; the count of log-group sources is at most
    the number of configured log groups; and the count of bucket sources is
    0, 4 or 5 whatever the number of files that were processed, as it
    counts the fields of one accumulator of lines. *)
Theorem report_summary (cfg : config.t) (s : settings.t)
    (send : CloudWatchClient) (cl : S3Client) (localTZA : Z) (clock : Clock) :
  (forall i, (i < length (settings.logGroups s))%nat ->
             Z.abs (groupFailureNow clock i) <= maxTime) ->
  (forall e, s3Client_list cl (listing_query s) = Throw e ->
             Z.abs (s3FailureNow clock) <= maxTime) ->
  Z.abs (reportNow clock) <= maxTime ->
  exists rep,
    analyzeLogs cfg s send cl localTZA clock = Ok rep /\
    totalErrors (report.summary rep) = Z.of_nat (length (report.errors rep)) /\
    totalViolations (report.summary rep)
    = Z.of_nat (length (report.violations rep)) /\
    0 <= cloudWatchSources (report.summary rep)
      <= Z.of_nat (length (settings.logGroups s)) /\
    (s3Sources (report.summary rep) = 0 \/
     s3Sources (report.summary rep) = 4 \/
     s3Sources (report.summary rep) = 5).
Proof.
  intros Hgroups Hlisting Hreport. unfold analyzeLogs.
  rewrite analyzeCloudWatchLogs_loop.
  destruct (group_loop_completes cfg s send (cloudWatchNow clock)
              (groupFailureNow clock) (settings.logGroups s) 0%nat
              analysis.empty) as (r1 & -> & Hsz & _).
  { intros j Hj. by apply Hgroups. }
  destruct (analyzeS3Logs_completes cfg s cl localTZA (s3Now clock)
              (lineNow clock) (s3FailureNow clock) Hlisting) as (r2 & Hr2).
  rewrite Hr2.
  apply toISOString_of_number in Hreport as (stamp & ->).
  eexists. split; [reflexivity|]. cbn [report.summary report.errors
    report.violations totalErrors totalViolations cloudWatchSources s3Sources].
  rewrite !length_app, !Nat2Z.inj_add.
  split; [done|]. split; [done|]. split.
  - simpl in Hsz. rewrite map_size_empty in Hsz. lia.
  - apply analyzeS3Logs_size in Hr2. lia.
Qed.

Lemma report_summary_witness :
  exists rep,
    analyzeLogs config.defaults two_groups one_up_one_down sample_bucket 0
      (still_clock 3600000) = Ok rep /\
    totalErrors (report.summary rep) = Z.of_nat (length (report.errors rep)) /\
    (s3Sources (report.summary rep) = 0 \/
     s3Sources (report.summary rep) = 4 \/
     s3Sources (report.summary rep) = 5).
Proof.
  destruct (report_summary config.defaults two_groups one_up_one_down
              sample_bucket 0 (still_clock 3600000))
    as (rep & Hrep & Herrors & _ & _ & Hsources).
  - intros i _. vm_compute. discriminate.
  - intros e He. vm_compute. discriminate.
  - vm_compute. discriminate.
  - exists rep. split; [exact Hrep|]. split; [exact Herrors | exact Hsources].
Defined.

(** ** The handler *)

Lemma sendAlert_fresh (cfg : config.t) (minutes : Z) (cl : Clients)
    (st : AlertState) (now nowSNS nowRecord : Z) (alertData : AlertData)
    (alertType : string) (severity : str) :
  st !! alertType = None ->
  sendAlert (with_cooldown cfg minutes) cl st now nowSNS nowRecord alertData
    alertType severity
  = sendAlert cfg cl st now nowSNS nowRecord alertData alertType severity
  /\ (forall other, other <> alertType ->
        snd (sendAlert cfg cl st now nowSNS nowRecord alertData alertType
               severity) !! other = st !! other).
Proof.
  intros Hfresh. unfold sendAlert, isInCooldown. rewrite Hfresh.
  change (sendSNSAlert (with_cooldown cfg minutes)) with (sendSNSAlert cfg).
  change (sendEmailAlert (with_cooldown cfg minutes)) with (sendEmailAlert cfg).
  split; [done|]. intros other Hother.
  destruct (sendSNSAlert _ _ _ _ _ _); [|done].
  destruct (sendEmailAlert _ _ _ _ _ _); [|done].
  simpl. unfold recordAlert. by rewrite lookup_insert_ne.
Qed.

(** The categories that the sends before left alone. *)
Ltac kept :=
  repeat match goal with
         | H : forall other : string, other <> _ -> ?st !! other = _
           |- ?st !! _ = _ => rewrite H by done
         end;
  done.

(** One alert that goes through: its category is not in the record. *)
Ltac send_fresh :=
  match goal with
  | |- context [sendAlert (with_cooldown ?c ?m) ?cl ?st ?n1 ?n2 ?n3 ?d ?ty ?sev] =>
      let Hkeep := fresh "Hkeep" in
      destruct (sendAlert_fresh c m cl st n1 n2 n3 d ty sev) as (-> & Hkeep);
      [ kept
      | destruct (sendAlert c cl st n1 n2 n3 d ty sev) as [[?|?] ?];
        simpl in Hkeep; [|done] ]
  end.

(** Three alerts of different categories, each sent or not, from a state
    that holds none of the categories, go through whatever the cooldown. *)
Lemma alerts_fresh (cfg : config.t) (minutes : Z) (cl : Clients)
    (due1 due2 due3 : bool) (clock1 clock2 clock3 : AlertClock)
    (alert1 alert3 : AlertData) (alert2 : result AlertData)
    (severity1 severity2 severity3 : str) (st : AlertState) :
  st !! "error-threshold" = None ->
  st !! "threshold-violation" = None ->
  st !! "summary" = None ->
  andThen
    (if due1
     then alertService_sendAlert (with_cooldown cfg minutes) cl clock1 alert1
            "error-threshold" severity1
     else skip)
    (fun _ =>
  andThen
    (if due2
     then andThen (lift alert2)
            (fun thresholdAlert =>
               alertService_sendAlert (with_cooldown cfg minutes) cl clock2
                 thresholdAlert "threshold-violation" severity2)
     else skip)
    (fun _ =>
    if due3
    then alertService_sendAlert (with_cooldown cfg minutes) cl clock3 alert3
           "summary" severity3
    else skip)) st
  = andThen
      (if due1
       then alertService_sendAlert cfg cl clock1 alert1 "error-threshold"
              severity1
       else skip)
      (fun _ =>
    andThen
      (if due2
       then andThen (lift alert2)
              (fun thresholdAlert =>
                 alertService_sendAlert cfg cl clock2 thresholdAlert
                   "threshold-violation" severity2)
       else skip)
      (fun _ =>
      if due3
      then alertService_sendAlert cfg cl clock3 alert3 "summary" severity3
      else skip)) st.
Proof.
  intros He Ht Hs.
  destruct due1, due2, due3, alert2 as [alert2|e2];
    unfold andThen, skip, lift, alertService_sendAlert; try done;
    repeat (send_fresh; try done).
Qed.

(** The three alerts of a run, from a state that holds none of their
    categories, go through whatever the cooldown. *)
Lemma processAnalysisResults_fresh (cfg : config.t) (minutes : Z)
    (s : settings.t) (tpl : Templates) (cl : Clients) (clock : AlertsClock)
    (results : report.t) (st : AlertState) :
  st !! "error-threshold" = None ->
  st !! "threshold-violation" = None ->
  st !! "summary" = None ->
  processAnalysisResults (with_cooldown cfg minutes) s tpl cl clock results st
  = processAnalysisResults cfg s tpl cl clock results st.
Proof.
  intros He Ht Hs. unfold processAnalysisResults.
  cbn [config.thresholds with_cooldown]. by apply alerts_fresh.
Qed.

(** X18. The cooldown never applies in the function: every invocation
    makes a new alert service with an empty record of last alerts, and the
    alerts of one invocation are of different categories, so that each
    alert that is due goes to the transports whatever the configured
    cooldown; the response of the handler, and the outcome and the record
    that the processing of the results leaves, are the same for every value
    of [alertCooldown]. *)
Theorem handler_ignores_cooldown (cfg : config.t) (minutes : Z)
    (s : settings.t) (tpl : Templates) (send : CloudWatchClient)
    (s3 : S3Client) (cl : Clients) (localTZA : Z) (clock : HandlerClock) :
  handler (with_cooldown cfg minutes) s tpl send s3 cl localTZA clock
  = handler cfg s tpl send s3 cl localTZA clock
  /\ (forall results,
        processAnalysisResults (with_cooldown cfg minutes) s tpl cl
          (alertsNow clock) results ∅
        = processAnalysisResults cfg s tpl cl (alertsNow clock) results ∅).
Proof.
  assert (forall results,
            processAnalysisResults (with_cooldown cfg minutes) s tpl cl
              (alertsNow clock) results ∅
            = processAnalysisResults cfg s tpl cl (alertsNow clock) results ∅)
    as Hsame by (intros results; by apply processAnalysisResults_fresh).
  split; [|exact Hsame].
  unfold handler.
  change (analyzeLogs (with_cooldown cfg minutes)) with (analyzeLogs cfg).
  destruct (analyzeLogs cfg s send s3 localTZA (analysisNow clock))
    as [results|e]; simpl; [|done].
  by rewrite Hsame.
Qed.

(** X19. A run without issues sends nothing: when the report holds no
    error and no violation and the limit of errors is not negative, the
    processing of the results touches neither transport and leaves the
    record of last alerts as it was, whatever the transports would do.
    With a negative limit (an environment with [MAX_ERRORS=-1]) the count 0
    exceeds the limit and also its double, so that every such run sends an
    'error-threshold' alert of severity CRITICAL about no error, and no
    summary. *)
Theorem quiet_run_sends_nothing (cfg : config.t) (s : settings.t)
    (tpl : Templates) (cl : Clients) (clock : AlertsClock)
    (results : report.t) (st : AlertState) :
  report.errors results = [] ->
  report.violations results = [] ->
  let maxErrors := config.maxErrors (config.errorRate (config.thresholds cfg)) in
  (0 <= maxErrors ->
   processAnalysisResults cfg s tpl cl clock results st = (Ok tt, st))
  /\ (maxErrors < 0 ->
      processAnalysisResults cfg s tpl cl clock results st
      = sendAlert cfg cl st (checkNow (errorAlertNow clock))
          (snsNow (errorAlertNow clock)) (recordNow (errorAlertNow clock))
          (formatErrorAlert tpl []
             (settings.lookbackMinutes (settings.analysis s)))
          "error-threshold" (chars "CRITICAL")).
Proof.
  intros He Hv maxErrors. unfold processAnalysisResults. rewrite He, Hv.
  fold maxErrors. simpl length. split; intros Hlimit.
  - replace (maxErrors <? Z.of_nat 0) with false
      by (symmetry; apply Z.ltb_ge; lia).
    reflexivity.
  - replace (maxErrors <? Z.of_nat 0) with true
      by (symmetry; apply Z.ltb_lt; lia).
    replace (maxErrors * 2 <? Z.of_nat 0) with true
      by (symmetry; apply Z.ltb_lt; lia).
    unfold andThen, alertService_sendAlert, skip. simpl.
    by destruct (sendAlert _ _ _ _ _ _ _ _ _) as [[[]|e] st'].
Qed.

Lemma quiet_run_sends_nothing_witness :
  processAnalysisResults config.defaults settings.defaults plain_templates
    mail_down (alertsNow (still_handler_clock 3600000)) quiet_report ∅
  = (Ok tt, ∅)
  /\ fst (processAnalysisResults (with_maxErrors config.defaults (-1))
            settings.defaults plain_templates mail_down
            (alertsNow (still_handler_clock 3600000)) quiet_report ∅)
     = Throw (Failure "SES unavailable").
Proof.
  split.
  - apply (quiet_run_sends_nothing config.defaults settings.defaults
             plain_templates mail_down
             (alertsNow (still_handler_clock 3600000)) quiet_report ∅);
      [reflexivity | reflexivity | vm_compute; discriminate].
  - rewrite (proj2 (quiet_run_sends_nothing
                      (with_maxErrors config.defaults (-1)) settings.defaults
                      plain_templates mail_down
                      (alertsNow (still_handler_clock 3600000)) quiet_report ∅
                      eq_refl eq_refl)); [reflexivity | reflexivity].
Defined.

(** X20. An alert that cannot be delivered fails the invocation: when the
    analysis has completed with at least one error or violation, no topic
    is configured, the mail service refuses every message and the clock is
    in range for the texts, the first alert that is due raises the error of
    the mail service, the alerts after it are given up, and the handler
    answers with status 500 and the message of that error, although the
    analysis itself succeeded. *)
Theorem undelivered_alert_fails_the_invocation (cfg : config.t)
    (s : settings.t) (tpl : Templates) (send : CloudWatchClient)
    (s3 : S3Client) (cl : Clients) (localTZA : Z) (clock : HandlerClock)
    (results : report.t) (e : exn) :
  analyzeLogs cfg s send s3 localTZA (analysisNow clock) = Ok results ->
  report.errors results <> [] \/ report.violations results <> [] ->
  config.snsTopicArn (config.alerts cfg) = None ->
  (forall command, sesClient_send cl command = Throw e) ->
  Z.abs (thresholdTextNow (alertsNow clock)) <= maxTime ->
  Z.abs (thresholdHtmlNow (alertsNow clock)) <= maxTime ->
  processAnalysisResults cfg s tpl cl (alertsNow clock) results ∅
  = (Throw e, ∅)
  /\ handler cfg s tpl send s3 cl localTZA clock
     = (timestamp ← toISOString (Date_of_number (failureResponseNow clock));
        Ok {| statusCode := 500; body := Failed (message_of e) timestamp |}).
Proof.
  intros Hrun Hissue Htopic Hmail Htext Hhtml.
  assert (forall clock1 alert category severity,
            alertService_sendAlert cfg cl clock1 alert category severity ∅
            = (Throw e, ∅)) as Hsend.
  { intros clock1 alert category severity.
    unfold alertService_sendAlert, sendAlert, isInCooldown.
    rewrite lookup_empty. unfold sendSNSAlert. rewrite Htopic.
    unfold sendEmailAlert. by rewrite Hmail. }
  assert (processAnalysisResults cfg s tpl cl (alertsNow clock) results ∅
          = (Throw e, ∅)) as Hprocess.
  { unfold processAnalysisResults, andThen.
    destruct (_ <? Z.of_nat (length (report.errors results))).
    { by rewrite Hsend. }
    unfold skip at 1.
    destruct (report.violations results) as [|v vs] eqn:Hv.
    - destruct (report.errors results) as [|err errs] eqn:He.
      + by destruct Hissue.
      + simpl. by rewrite Hsend.
    - cbn [length]. replace (0 <? Z.of_nat (S (length vs))) with true
        by (symmetry; apply Z.ltb_lt; lia).
      unfold lift, formatThresholdAlert.
      apply toISOString_of_number in Htext as (stamp1 & ->).
      apply toISOString_of_number in Hhtml as (stamp2 & ->).
      simpl. by rewrite Hsend. }
  split; [exact Hprocess|].
  unfold handler. rewrite Hrun. simpl. rewrite Hprocess. reflexivity.
Qed.

Lemma undelivered_alert_fails_the_invocation_witness :
  handler config.defaults two_groups plain_templates one_up_one_down
    sample_bucket mail_down 0 (still_handler_clock 3600000)
  = Ok {| statusCode := 500;
          body := Failed (chars "SES unavailable")
                    (chars "1970-01-01T01:00:00.000Z") |}.
Proof.
  destruct (analyzeLogs config.defaults two_groups one_up_one_down
              sample_bucket 0 (analysisNow (still_handler_clock 3600000)))
    as [results|e] eqn:E; [|vm_compute in E; discriminate].
  destruct (undelivered_alert_fails_the_invocation config.defaults two_groups
              plain_templates one_up_one_down sample_bucket mail_down 0
              (still_handler_clock 3600000) results
              (Failure "SES unavailable") E) as (_ & ->).
  - left. vm_compute in E. injection E as <-. discriminate.
  - reflexivity.
  - reflexivity.
  - vm_compute. discriminate.
  - vm_compute. discriminate.
  - vm_compute. reflexivity.
Defined.

(** X21. The handler always answers: as long as the clock is in range when
    the failure response is stamped, no failure of the analysis, of an
    alert or of the clock leaves the handler as an exception.  The answer
    has status 200, with the summary of the report and the duration
    between the two readings of the clock, exactly when the analysis
    completed, every alert that was due was delivered and the clock was in
    range for the timestamp; in every other case it has status 500 and
    carries the message of the error. *)
Theorem handler_always_answers (cfg : config.t) (s : settings.t)
    (tpl : Templates) (send : CloudWatchClient) (s3 : S3Client)
    (cl : Clients) (localTZA : Z) (clock : HandlerClock) :
  Z.abs (failureResponseNow clock) <= maxTime ->
  exists response,
    handler cfg s tpl send s3 cl localTZA clock = Ok response /\
    ((statusCode response = 200 /\
      exists results stamp,
        analyzeLogs cfg s send s3 localTZA (analysisNow clock) = Ok results /\
        fst (processAnalysisResults cfg s tpl cl (alertsNow clock) results ∅)
        = Ok tt /\
        toISOString (Date_of_number (responseNow clock)) = Ok stamp /\
        body response
        = Completed (report.summary results) (endNow clock - startNow clock)
            stamp)
     \/ (statusCode response = 500 /\
         exists e stamp,
           (analyzeLogs cfg s send s3 localTZA (analysisNow clock) = Throw e \/
            (exists results,
               analyzeLogs cfg s send s3 localTZA (analysisNow clock)
               = Ok results /\
               (fst (processAnalysisResults cfg s tpl cl (alertsNow clock)
                       results ∅) = Throw e \/
                toISOString (Date_of_number (responseNow clock)) = Throw e)))
           /\ body response = Failed (message_of e) stamp)).
Proof.
  intros Hclock. apply toISOString_of_number in Hclock as (stamp & Hstamp).
  unfold handler. rewrite Hstamp.
  destruct (analyzeLogs cfg s send s3 localTZA (analysisNow clock))
    as [results|e] eqn:Hrun; simpl.
  - destruct (fst (processAnalysisResults cfg s tpl cl (alertsNow clock)
                     results ∅)) as [[]|e] eqn:Hprocess; simpl.
    + destruct (toISOString (Date_of_number (responseNow clock)))
        as [stamp'|e] eqn:Hresponse; simpl.
      * eexists. split; [reflexivity|]. left. split; [done|].
        exists results, stamp'. done.
      * eexists. split; [reflexivity|]. right. split; [done|].
        exists e, stamp. split; [|done]. right. exists results. auto.
    + eexists. split; [reflexivity|]. right. split; [done|].
      exists e, stamp. split; [|done]. right. exists results. auto.
  - eexists. split; [reflexivity|]. right. split; [done|].
    exists e, stamp. split; [by left | done].
Qed.

Lemma handler_always_answers_witness :
  exists response,
    handler config.defaults no_groups plain_templates one_up_one_down
      empty_bucket mail_down 0 (still_handler_clock 3600000) = Ok response /\
    statusCode response = 200.
Proof.
  destruct (handler_always_answers config.defaults no_groups plain_templates
              one_up_one_down empty_bucket mail_down 0
              (still_handler_clock 3600000))
    as (response & Hanswer & Hstatus).
  { vm_compute. discriminate. }
  exists response. split; [exact Hanswer|].
  destruct Hstatus as [(H200 & _) | (H500 & _)]; [exact H200|].
  vm_compute in Hanswer. injection Hanswer as <-. discriminate.
Defined.

(** ** The settings of the environment *)






Lemma parseInt_zero : parseInt (Some (numeral 0)) = Some 0.
Proof. reflexivity. Qed.



Lemma split_nonempty (separator : ascii) (text : str) :
  split separator text <> [].
Proof.
  destruct text as [|c text]; simpl; [done|].
  destruct (Ascii.eqb c separator); [done|].
  by destruct (split separator text).
Qed.

Lemma join_split (separator : ascii) (text : str) :
  join separator (split separator text) = text.
Proof.
  induction text as [|c text IH]; [done|]. simpl.
  pose proof (split_nonempty separator text) as Hne.
  destruct (Ascii.eqb c separator) eqn:E.
  - apply Ascii.eqb_eq in E as ->.
    destruct (split separator text) as [|piece pieces]; [done|].
    simpl in *. by rewrite IH.
  - destruct (split separator text) as [|piece pieces]; [done|].
    simpl in *. destruct pieces; simpl in *; by rewrite <- IH.
Qed.

Lemma split_pieces (separator : ascii) (text : str) :
  List.Forall (fun piece => ~ In separator piece) (split separator text)
  /\ length (split separator text) = S (occurrences separator text).
Proof.
  unfold occurrences. induction text as [|c text (IHp & IHl)].
  - split; [|done]. constructor; [|constructor]. by intros [].
  - cbn [split List.filter]. rewrite (Ascii.eqb_sym separator c).
    destruct (Ascii.eqb c separator) eqn:E.
    + split; [|cbn [length]; by rewrite IHl].
      constructor; [by intros []|done].
    + pose proof (split_nonempty separator text) as Hne.
      destruct (split separator text) as [|piece pieces]; [done|].
      split; [|exact IHl].
      inversion IHp as [|? ? Hpiece Hpieces]; subst.
      constructor; [|done]. intros [->|Hin]; [|done].
      by rewrite Ascii.eqb_refl in E.
Qed.

(** X23. The recipients are the pieces of [EMAIL_TO] between its commas,
    as they stand: when the variable is set and not empty, putting the
    recipients together with commas gives the variable back (nothing is
    trimmed, and two commas in a row or one at an end give an empty
    recipient), no recipient holds a comma, and there is one recipient more
    than commas; when the variable is unset or empty, the only recipient is
    admin@company.com. *)
Theorem recipients_are_the_pieces_between_commas (env : gmap string str) :
  match env !! "EMAIL_TO" with
  | Some ((_ :: _) as recipients) =>
      join ","%char (config.emailTo (load.alerts env)) = recipients /\
      List.Forall (fun recipient => ~ In ","%char recipient)
        (config.emailTo (load.alerts env)) /\
      length (config.emailTo (load.alerts env))
      = S (occurrences ","%char recipients)
  | _ => config.emailTo (load.alerts env) = [chars "admin@company.com"]
  end.
Proof.
  unfold load.alerts. cbn [config.emailTo].
  destruct (env !! "EMAIL_TO") as [[|c recipients]|]; [done| |done].
  split; [apply join_split | apply split_pieces].
Qed.

(** ** The severity of the alerts *)

Lemma existsb_map {A B : Type} (f : B -> bool) (g : A -> B) (l : list A) :
  existsb f (map g l) = existsb (fun x => f (g x)) l.
Proof. induction l as [|x l IH]; simpl; [done | by rewrite IH]. Qed.

(** What the mail service of the observer answers to an alert. *)
Lemma critical_refused_answer (cfg : config.t) (subject htmlBody textBody : str) :
  sendEmailAlert cfg critical_refused subject htmlBody textBody
    (chars "CRITICAL") = Throw (Failure "critical refused")
  /\ sendEmailAlert cfg critical_refused subject htmlBody textBody
       (chars "WARNING") = Ok (chars "mail-1")
  /\ sendEmailAlert cfg critical_refused subject htmlBody textBody
       (chars "INFO") = Ok (chars "mail-1").
Proof. repeat split. Qed.

(** One alert before the observer, when there is no topic and the category
    is not in the record. *)
Lemma observed_alert (cfg : config.t) (clock : AlertClock)
    (alertData : AlertData) (alertType : string) (critical : bool)
    (st : AlertState) :
  config.snsTopicArn (config.alerts cfg) = None ->
  st !! alertType = None ->
  alertService_sendAlert cfg critical_refused clock alertData alertType
    (if critical then chars "CRITICAL" else chars "WARNING") st
  = if critical then (Throw (Failure "critical refused"), st)
    else (Ok tt, <[alertType := recordNow clock]> st).
Proof.
  intros Htopic Hfresh.
  unfold alertService_sendAlert, sendAlert, isInCooldown. rewrite Hfresh.
  unfold sendSNSAlert. rewrite Htopic.
  destruct (critical_refused_answer cfg (subject alertData)
              (htmlMessage alertData) (textMessage alertData))
    as (Hc & Hw & _).
  destruct critical; [by rewrite Hc | by rewrite Hw].
Qed.

(** X24. The severity with which the alerts go out, told by a mail service
    that refuses exactly the messages marked critical (with no topic
    configured and the clock in range for the texts): the processing of
    the results meets a refusal exactly when the number of errors exceeds
    the limit and also its double, or some violation is of a metric whose
    name holds 'Memory' or 'Error'; the summary, marked INFO, is never
    refused.  For the violations that [checkThresholds] reports, the
    threshold alert is critical exactly when an 'Error Count' or a 'Memory
    Usage' violation is among them, and a warning when all of them are of
    response times. *)
Theorem alert_severities (cfg : config.t) (s : settings.t) (tpl : Templates)
    (clock : AlertsClock) (results : report.t) :
  config.snsTopicArn (config.alerts cfg) = None ->
  Z.abs (thresholdTextNow clock) <= maxTime ->
  Z.abs (thresholdHtmlNow clock) <= maxTime ->
  let maxErrors := config.maxErrors (config.errorRate (config.thresholds cfg)) in
  let errors := Z.of_nat (length (report.errors results)) in
  (fst (processAnalysisResults cfg s tpl critical_refused clock results ∅)
   = Throw (Failure "critical refused")
   <-> (maxErrors < errors /\ maxErrors * 2 < errors) \/
       existsb grave (report.violations results) = true)
  /\ (fst (processAnalysisResults cfg s tpl critical_refused clock results ∅)
      = Ok tt
      <-> ~ ((maxErrors < errors /\ maxErrors * 2 < errors) \/
             existsb grave (report.violations results) = true))
  /\ (forall m source,
        let vs := checkThresholds cfg m source in
        existsb grave vs = true <->
        fires "Error Count" vs \/ fires "Memory Usage" vs).
Proof.
  intros Htopic Htext Hhtml maxErrors errors.
  apply toISOString_of_number in Htext as (stamp1 & Hstamp1).
  apply toISOString_of_number in Hhtml as (stamp2 & Hstamp2).
  assert (fst (processAnalysisResults cfg s tpl critical_refused clock results ∅)
          = if ((maxErrors <? errors) && (maxErrors * 2 <? errors))
               || existsb grave (report.violations results)
            then Throw (Failure "critical refused") else Ok tt) as Hrun.
  { unfold processAnalysisResults, andThen. fold maxErrors. fold errors.
    fold grave.
    assert (forall st : AlertState,
              st !! "threshold-violation" = None ->
              st !! "summary" = None ->
              fst (let (r, st') :=
                     (if 0 <? Z.of_nat (length (report.violations results))
                      then
                        fun lastAlertTimes =>
                          let (r0, lastAlertTimes') :=
                            lift (formatThresholdAlert tpl
                                    (thresholdTextNow clock)
                                    (thresholdHtmlNow clock)
                                    (report.violations results))
                              lastAlertTimes in
                          match r0 with
                          | Ok a =>
                              alertService_sendAlert cfg critical_refused
                                (thresholdAlertNow clock) a
                                "threshold-violation"
                                (if existsb grave (report.violations results)
                                 then chars "CRITICAL" else chars "WARNING")
                                lastAlertTimes'
                          | Throw e => (Throw e, lastAlertTimes')
                          end
                      else skip) st in
                   match r with
                   | Ok _ =>
                       (if (0 <? errors)
                           || (0 <? Z.of_nat (length (report.violations results)))
                        then
                          alertService_sendAlert cfg critical_refused
                            (summaryAlertNow clock) (summaryAlert tpl results)
                            "summary" (chars "INFO")
                        else skip) st'
                   | Throw e => (Throw e, st')
                   end)
              = if existsb grave (report.violations results)
                then Throw (Failure "critical refused") else Ok tt) as Hrest.
    { intros st Ht Hs.
      assert (forall st1 : AlertState,
                st1 !! "summary" = None ->
                fst ((if (0 <? errors)
                         || (0 <? Z.of_nat (length (report.violations results)))
                      then
                        alertService_sendAlert cfg critical_refused
                          (summaryAlertNow clock) (summaryAlert tpl results)
                          "summary" (chars "INFO")
                      else skip) st1) = Ok tt) as Hsummary.
      { intros st1 H1. destruct (_ || _); [|done].
        unfold alertService_sendAlert, sendAlert, isInCooldown. rewrite H1.
        unfold sendSNSAlert. by rewrite Htopic. }
      destruct (report.violations results) as [|v vs] eqn:Hv.
      - simpl. by apply Hsummary.
      - replace (0 <? Z.of_nat (length (v :: vs))) with true
          by (symmetry; apply Z.ltb_lt; simpl; lia).
        unfold lift, formatThresholdAlert. rewrite Hstamp1, Hstamp2.
        cbn [mbind result_bind bind].
        rewrite (observed_alert cfg _ _ _ (existsb grave (v :: vs)))
          by done.
        destruct (existsb grave (v :: vs)); [done|].
        apply Hsummary. by rewrite lookup_insert_ne. }
    destruct (maxErrors <? errors) eqn:Hdue; cbn [andb orb].
    - rewrite (observed_alert cfg _ _ _ (maxErrors * 2 <? errors)) by done.
      destruct (maxErrors * 2 <? errors); [done|].
      cbn [orb]. apply Hrest; by rewrite lookup_insert_ne.
    - unfold skip at 1. by apply Hrest. }
  split; [|split].
  - rewrite Hrun. destruct (_ || _) eqn:E.
    + split; [intros _|done]. apply orb_prop in E as [E|E]; [left | by right].
      apply andb_prop in E as (E1 & E2).
      by apply Z.ltb_lt in E1; apply Z.ltb_lt in E2.
    + split; [done|]. intros Hc. apply orb_false_elim in E as (E1 & E2).
      destruct Hc as [(H1 & H2)|Hc]; [|congruence].
      apply Z.ltb_lt in H1. apply Z.ltb_lt in H2.
      by rewrite H1, H2 in E1.
  - rewrite Hrun. destruct (_ || _) eqn:E.
    + split; [done|]. intros Hn. destruct Hn.
      apply orb_prop in E as [E|E]; [left | by right].
      apply andb_prop in E as (E1 & E2).
      by apply Z.ltb_lt in E1; apply Z.ltb_lt in E2.
    + split; [intros _|done]. intros Hc. apply orb_false_elim in E as (E1 & E2).
      destruct Hc as [(H1 & H2)|Hc]; [|congruence].
      apply Z.ltb_lt in H1. apply Z.ltb_lt in H2.
      by rewrite H1, H2 in E1.
  - intros m source vs. unfold fires, vs.
    replace (existsb grave (checkThresholds cfg m source))
      with (existsb (fun name => includes name (chars "Memory")
                                 || includes name (chars "Error"))
              (map violation.metric (checkThresholds cfg m source)))
      by (by rewrite existsb_map).
    rewrite checkThresholds_metrics. cbv zeta.
    repeat match goal with
           | |- context [if ?b then [_] else []] => destruct b
           end;
      (split;
       [ intros H; vm_compute in H; try discriminate H;
         first [ left; vm_compute; tauto | right; vm_compute; tauto ]
       | intros [H|H]; vm_compute in H; vm_compute; intuition discriminate ]).
Qed.

Lemma alert_severities_witness :
  fst (processAnalysisResults config.defaults settings.defaults
         plain_templates critical_refused
         (alertsNow (still_handler_clock 3600000)) many_errors ∅)
  = Throw (Failure "critical refused").
Proof.
  apply (alert_severities config.defaults settings.defaults plain_templates
           (alertsNow (still_handler_clock 3600000)) many_errors).
  - reflexivity.
  - vm_compute. discriminate.
  - vm_compute. discriminate.
  - left. split; vm_compute; reflexivity.
Defined.

(** ** Accounting of a file *)

Lemma error_lines_snoc (cfg : config.t) (pre : list str) (line : str) :
  error_lines cfg (pre ++ [line])
  = error_lines cfg pre
    ++ (if isError cfg line then [(length pre, line)] else []).
Proof.
  unfold error_lines. rewrite imap_app, List.filter_app. f_equal.
  simpl. rewrite Nat.add_0_r. by destruct (isError cfg line).
Qed.

(** X25. A file whose lines are processed without an exception yields one
    error entry for each line that the classifier takes for an error, in
    the order of the lines and none besides: the entry carries the
    timestamp extracted from the line or, when the line has none, the
    clock at that line, the name of the file as its source and the first
    500 characters of the line.  The error count of the accumulator is the
    number of entries and [totalLines] the number of lines. *)
Theorem file_errors_are_the_error_lines (cfg : config.t) (localTZA : Z)
    (clock : nat -> Z) (lines : list str) (source : str) (r : Results) :
  processLogLines cfg localTZA clock lines source = Ok r ->
  Forall2 (entry_of_line localTZA clock source) (errors r)
    (error_lines cfg lines)
  /\ errorCount (metrics r) = Z.of_nat (length (errors r))
  /\ length (errors r) = length (error_lines cfg lines)
  /\ totalLines (metrics r) = Some (Z.of_nat (length lines))
  /\ violations r = checkThresholds cfg (metrics r) source.
Proof.
  intros H. unfold processLogLines in H.
  match type of H with
  | mbind _ (forEach ?f ?i ?a ?st) = _ =>
      destruct (forEach f i a st) as [r1|e] eqn:E
  end; [|discriminate].
  injection H as <-. simpl.
  set (N := Z.of_nat (length lines)) in *.
  assert (Forall2 (entry_of_line localTZA clock source) (errors r1)
            (error_lines cfg lines) /\
          errorCount (metrics r1) = Z.of_nat (length (errors r1)) /\
          totalLines (metrics r1) = Some N /\ violations r1 = [])
    as (HF & Hc & Ht & Hv).
  { change lines with ([] ++ lines) at 1.
    eapply (forEach_indexed
              (fun pre st =>
                 Forall2 (entry_of_line localTZA clock source) (errors st)
                   (error_lines cfg pre) /\
                 errorCount (metrics st) = Z.of_nat (length (errors st)) /\
                 totalLines (metrics st) = Some N /\ violations st = []));
      [| |exact E]; [|by repeat split; try constructor].
    intros pre line st st' (HF & Hc & Ht & Hv) Hstep. cbn beta in Hstep.
    rewrite error_lines_snoc.
    pose proof (extractMetrics_counters line) as Hm.
    destruct (isError cfg line) eqn:Herr.
    - assert (exists stamp,
                (extractTimestamp localTZA line = Ok (Some stamp) \/
                 (extractTimestamp localTZA line = Ok None /\
                  toISOString (Date_of_number (clock (length pre)))
                  = Ok stamp)) /\
                st' = set_metrics
                        (push_error st
                           {| error.timestamp := stamp;
                              error.logGroup := None;
                              error.message := substring0 500 line;
                              error.source := source |})
                        (extractMetrics line
                           (set_errorCount (metrics st)
                              (errorCount (metrics st) + 1))))
        as (stamp & Hstamp & ->).
      { destruct (extractTimestamp localTZA line) as [[t|]|e1];
          simpl in Hstep; [| |discriminate].
        - injection Hstep as <-. eauto.
        - destruct (toISOString _) as [iso|e2]; simpl in Hstep;
            [|discriminate].
          injection Hstep as <-. eauto. }
      cbn [metrics errors violations set_metrics push_error].
      destruct (Hm (set_errorCount (metrics st) (errorCount (metrics st) + 1)))
        as (_ & -> & ->).
      simpl. repeat split; try assumption.
      + apply Forall2_app; [exact HF|]. constructor; [|constructor].
        by repeat split.
      + rewrite length_app. simpl. lia.
    - simpl in Hstep. injection Hstep as <-. rewrite app_nil_r.
      cbn [metrics errors violations set_metrics].
      destruct (Hm (metrics st)) as (_ & -> & ->). by repeat split. }
  repeat split; try assumption.
  - by apply Forall2_length in HF.
  - by rewrite Hv.
Qed.

Lemma file_errors_are_the_error_lines_witness :
  exists r,
    processLogLines config.defaults 0 (fun _ => 5000)
      [chars "2023-12-01 10:30:45 ERROR: disk failed"; chars "GET /health 200";
       chars "request failed"] (chars "logs/app.log") = Ok r /\
    length (errors r) = 2%nat /\ errorCount (metrics r) = 2.
Proof.
  destruct (processLogLines config.defaults 0 (fun _ => 5000)
              [chars "2023-12-01 10:30:45 ERROR: disk failed";
               chars "GET /health 200"; chars "request failed"]
              (chars "logs/app.log")) as [r|e] eqn:E;
    [|vm_compute in E; discriminate].
  exists r. split; [reflexivity|].
  destruct (file_errors_are_the_error_lines _ _ _ _ _ r E)
    as (_ & Hc & Hl & _).
  rewrite Hc, Hl. split; vm_compute; reflexivity.
Defined.

(** ** Runs on the sample inputs *)

Example example_environment_loads :
  integer_settings example_environment = integer_defaults
  /\ load.alerts example_environment
     = {| config.snsTopicArn :=
            Some (chars "arn:aws:sns:us-east-1:123456789012:log-analyzer-alerts");
          config.emailFrom := chars "alerts@company.com";
          config.emailTo := [chars "admin@company.com"; chars "ops@company.com"];
          config.alertCooldown := 30 |}
  /\ load.s3Config example_environment
     = {| settings.bucket := chars "my-company-logs";
          settings.prefix := chars "logs/";
          settings.region := chars "us-east-1" |}.
Proof. repeat split; vm_compute; reflexivity. Qed.

Example empty_environment_loads :
  load.errorRate ∅ = config.errorRate (config.thresholds config.defaults)
  /\ load.responseTime ∅
     = config.responseTime (config.thresholds config.defaults)
  /\ load.alerts ∅ = config.alerts config.defaults
  /\ load.s3Config ∅ = settings.s3Config settings.defaults
  /\ load.analysis ∅ = settings.analysis settings.defaults.
Proof. repeat split. Qed.

(** Two log groups, one of them failing, and a bucket with a text, a stale
    file and an archive that cannot be inflated: three errors, one source of
    log groups and the four fields of the text. *)
Example sample_run :
  exists rep,
    analyzeLogs config.defaults two_groups one_up_one_down sample_bucket 0
      (still_clock 3600000) = Ok rep
    /\ map error.source (report.errors rep)
       = [chars "cloudwatch"; chars "log-analyzer"; chars "logs/app.log"]
    /\ report.summary rep
       = {| totalErrors := 3; totalViolations := 0; cloudWatchSources := 1;
            s3Sources := 4 |}.
Proof. eexists. split; [vm_compute; reflexivity|]. split; reflexivity. Qed.
